(** * osrs-dps-calc: scripts/generateMonsters.py

    A shallow embedding of the monster generator script: the paginated
    fetch loop [get_monster_data], the per-record normalisation done by
    the body of the first loop of [main], and the image download loop at
    the end of [main].

    Modelling conventions
    - Python [str] is [string]; the characters are the 8-bit characters of
      [ascii], so [str.lower] only ever touches [A-Z].
    - A JSON value found inside a printout array is a [value]; numbers are
      integers ([Z], Python ints are unbounded).
    - A [printouts] object is only ever indexed by key: it is a
      [gmap string (list value)].  The result dictionary of the wiki is
      iterated in insertion order: it is an association list.
    - Exceptions are a [result] monad; the first one raised aborts the run.
    - The file system is a map from files to contents, a resolution of
      the path strings to the files they designate, and a log of the
      paths opened for writing; [open] raises where the file cannot be
      created.  The HTTP requests always get an answer. *)

From Stdlib Require Import ZArith Ascii String Init.Byte.
From stdpp Require Import base option list gmap strings.

Local Open Scope string_scope.

(** ** Python string primitives *)

Module PyStr.

(** [sub in s] *)
Fixpoint contains (sub s : string) : bool :=
  String.prefix sub s ||
  match s with
  | EmptyString => false
  | String _ s' => contains sub s'
  end.

(** [s.replace(old, new)] for a non-empty [old]: scan left to right; at an
    occurrence of [old] emit [new] and jump over the occurrence.  The
    jump is the counter [skip]. *)
Fixpoint replace_from (old new : string) (skip : nat) (s : string) : string :=
  match s with
  | EmptyString => EmptyString
  | String c s' =>
      match skip with
      | S n => replace_from old new n s'
      | O =>
          if String.prefix old s
          then new +:+ replace_from old new (String.length old - 1) s'
          else String c (replace_from old new 0 s')
      end
  end.

Definition replace (old new s : string) : string := replace_from old new 0 s.

Definition lower_char (c : ascii) : ascii :=
  let n := nat_of_ascii c in
  if (65 <=? n)%nat && (n <=? 90)%nat then ascii_of_nat (n + 32) else c.

(** [str.lower(s)] *)
Fixpoint lower (s : string) : string :=
  match s with
  | EmptyString => EmptyString
  | String c s' => String (lower_char c) (lower s')
  end.

(** [s.split(sep, 1)] for a one-character separator: one cut at the
    first occurrence of [sep]. *)
Fixpoint split1 (sep : ascii) (s : string) : list string :=
  match s with
  | EmptyString => [EmptyString]
  | String c s' =>
      if Ascii.eqb c sep then [EmptyString; s']
      else match split1 sep s' with
           | a :: tl => String c a :: tl
           | [] => []
           end
  end.

(** [s.rsplit(sep, 1)] for a one-character separator: one cut at the
    last occurrence of [sep]. *)
Fixpoint rsplit1 (sep : ascii) (s : string) : list string :=
  match s with
  | EmptyString => [EmptyString]
  | String c s' =>
      match rsplit1 sep s' with
      | [a; b] => [String c a; b]
      | _ => if Ascii.eqb c sep then [EmptyString; s'] else [s]
      end
  end.

(** The pattern of the namespace test is: start of the string, a group
    of zero or more characters of the class [A-z], then a colon.  The
    class [A-z] is the code range 65..122, which holds the letters and
    the six characters between [Z] and [a]. *)
Definition in_A_z (c : ascii) : bool :=
  let n := nat_of_ascii c in (65 <=? n)%nat && (n <=? 122)%nat.

(** [re.match] of that pattern.  The star is greedy and backtracks, but
    the colon is outside the class, so the only split that can succeed
    is the maximal one (see [match_namespace_spec]). *)
Fixpoint match_namespace (s : string) : bool :=
  match s with
  | EmptyString => false
  | String c s' =>
      if Ascii.eqb c ":" then true
      else if in_A_z c then match_namespace s' else false
  end.

End PyStr.

(** ** JSON values of the printouts *)

Inductive value :=
| VNone
| VBool (b : bool)
| VInt (n : Z)
| VStr (s : string)
| VPage (fulltext : string).

(** Python truth value *)
Definition truthy (v : value) : bool :=
  match v with
  | VNone => false
  | VBool b => b
  | VInt n => negb (n =? 0)%Z
  | VStr s => negb (String.eqb s "")
  | VPage _ => true
  end.

(** [v == 0] *)
Definition eq_zero (v : value) : bool :=
  match v with
  | VInt n => (n =? 0)%Z
  | VBool b => negb b
  | _ => false
  end.

(** [v is None] *)
Definition is_None (v : value) : bool :=
  match v with VNone => true | _ => false end.

(** [a or b] *)
Definition py_or (a b : value) : value := if truthy a then a else b.

(** ** Exceptions *)

Inductive exn :=
| KeyError (key : string)
| TypeError
| OSError (path : string).

Inductive result (A : Type) :=
| Ok (a : A)
| Raise (e : exn).
Arguments Ok {A} a.
Arguments Raise {A} e.

#[global] Instance result_ret : MRet result := fun _ a => Ok a.
#[global] Instance result_bind : MBind result := fun _ _ f r =>
  match r with
  | Ok a => f a
  | Raise e => Raise e
  end.

(** ** Records *)

(** A raw result of the wiki: ['printouts' in v] and [v['printouts']]. *)
Record raw_record := { printouts : option (gmap string (list value)) }.

Record monster := {
  id : value;
  name : string;
  version : string;
  image : string;
  level : value;
  speed : value;
  size : value;
  skills : list value;
  offensive : list value;
  defensive : list value;
  attributes : list value
}.

(** [po[key]] *)
Definition getitem (po : gmap string (list value)) (key : string) : result (list value) :=
  match po !! key with
  | Some l => Ok l
  | None => Raise (KeyError key)
  end.

(** [c['fulltext']] *)
Definition get_fulltext (c : value) : result string :=
  match c with
  | VPage f => Ok f
  | _ => Raise TypeError
  end.

Definition get_printout_value (prop : list value) : value :=
  match prop with
  | [] => VNone
  | x :: _ => x
  end.

(** [next((c for c in category_array if c['fulltext'] == "Category:%s" % category), None)] *)
Fixpoint has_category (category_array : list value) (category : string) : result value :=
  match category_array with
  | [] => Ok VNone
  | c :: tl =>
      f ← get_fulltext c;
      if String.eqb f ("Category:" +:+ category) then Ok c
      else has_category tl category
  end.

(** [get_printout_value(po[key]) or 0] *)
Definition field (po : gmap string (list value)) (key : string) : result value :=
  l ← getitem po key;
  Ok (py_or (get_printout_value l) (VInt 0)).

(** [k.split('#', 1)[1]], with the [IndexError] caught (lines 118-121) *)
Definition key_version (k : string) : string :=
  default "" (PyStr.split1 "#" k !! 1%nat).

(** [k.rsplit('#', 1)[0] or ''] (line 141) *)
Definition key_name (k : string) : string :=
  let s := default "" (PyStr.rsplit1 "#" k !! 0%nat) in
  if String.eqb s "" then "" else s.

(** Lines 110-171 of the loop body: the skips that come before the field
    extraction, then the [monster] dictionary.  [Ok None] is [continue]. *)
Definition build_monster (k : string) (v : raw_record) : result (option monster) :=
  match printouts v with
  | None => Ok None
  | Some po =>
      let version := key_version k in
      if PyStr.contains "Challenge Mode" version then Ok None
      else if PyStr.match_namespace k then Ok None
      else
        cat ← getitem po "Category";
        c1 ← has_category cat "Non-interactive scenery";
        c2 ← (if truthy c1 then Ok c1 else
               cat' ← getitem po "Category";
               has_category cat' "Discontinued content");
        if truthy c2 then Ok None
        else
          npc ← getitem po "NPC ID";
          img ← getitem po "Image";
          image ← match img with
                  | [] => Ok ""
                  | c :: _ => f ← get_fulltext c; Ok (PyStr.replace "File:" "" f)
                  end;
          level ← field po "Combat level";
          speed ← field po "Attack speed";
          size ← field po "Size";
          s0 ← field po "Attack level";
          s1 ← field po "Defence level";
          s2 ← field po "Hitpoints";
          s3 ← field po "Magic level";
          s4 ← field po "Ranged level";
          s5 ← field po "Strength level";
          o0 ← field po "Attack bonus";
          o1 ← field po "Magic Damage bonus";
          o2 ← field po "Magic attack bonus";
          o3 ← field po "Range attack bonus";
          o4 ← field po "Ranged Strength bonus";
          o5 ← field po "Strength bonus";
          d0 ← field po "Crush defence bonus";
          d1 ← field po "Magic defence bonus";
          d2 ← field po "Range defence bonus";
          d3 ← field po "Slash defence bonus";
          d4 ← field po "Stab defence bonus";
          attrs ← getitem po "Monster attribute";
          Ok (Some
            {| id := get_printout_value npc;
               name := key_name k;
               version := version;
               image := image;
               level := level; speed := speed; size := size;
               skills := [s0; s1; s2; s3; s4; s5];
               offensive := [o0; o1; o2; o3; o4; o5];
               defensive := [d0; d1; d2; d3; d4];
               attributes := attrs |})
  end.

(** Lines 174-185: the condition of the pruning [if]. *)
Definition prune (m : monster) : bool :=
  eq_zero (default VNone (skills m !! 2%nat))
  || is_None (id m)
  || PyStr.contains "(historical)" (PyStr.lower (name m))
  || PyStr.contains "(pvm arena)" (PyStr.lower (name m))
  || PyStr.contains "(deadman: apocalypse)" (PyStr.lower (name m)).

Definition set_skills (m : monster) (sk : list value) : monster :=
  {| id := id m; name := name m; version := version m; image := image m;
     level := level m; speed := speed m; size := size m;
     skills := sk;
     offensive := offensive m; defensive := defensive m;
     attributes := attributes m |}.

(** Lines 188-198: [monster['skills'][1] = d; monster['skills'][5] = s]. *)
Definition vardorvis_override (m : monster) : monster :=
  let set d s := set_skills m (<[5%nat := VInt s]> (<[1%nat := VInt d]> (skills m))) in
  if String.eqb (name m) "Vardorvis" then
    if String.eqb (version m) "Post-Quest" then set 215%Z 270%Z
    else if String.eqb (version m) "Awakened" then set 268%Z 391%Z
    else if String.eqb (version m) "Quest" then set 180%Z 210%Z
    else m
  else m.

(** The whole body of the loop over [wiki_data.items()]: [Ok None] is
    [continue], [Ok (Some m)] is what reaches [data.append(monster)]. *)
Definition process_record (k : string) (v : raw_record) : result (option monster) :=
  o ← build_monster k v;
  match o with
  | None => Ok None
  | Some m => if prune m then Ok None else Ok (Some (vardorvis_override m))
  end.

(** The keys of [po] that the loop body reads, in the order in which it
    reads them. *)
Definition accessed_keys : list string :=
  ["Category"; "NPC ID"; "Image"; "Combat level"; "Attack speed"; "Size";
   "Attack level"; "Defence level"; "Hitpoints"; "Magic level";
   "Ranged level"; "Strength level";
   "Attack bonus"; "Magic Damage bonus"; "Magic attack bonus";
   "Range attack bonus"; "Ranged Strength bonus"; "Strength bonus";
   "Crush defence bonus"; "Magic defence bonus"; "Range defence bonus";
   "Slash defence bonus"; "Stab defence bonus"; "Monster attribute"].

(** [key not in po] *)
Definition missing (po : gmap string (list value)) (key : string) : bool :=
  match po !! key with
  | None => true
  | Some _ => false
  end.

(** The first key, in reading order, that [po] lacks. *)
Definition first_missing (po : gmap string (list value)) : option string :=
  List.find (missing po) accessed_keys.

(** The category test of lines 133-137 neither skips the record nor
    meets an entry that is not a page (vacuous without the key). *)
Definition category_passes (po : gmap string (list value)) : bool :=
  match po !! "Category" with
  | None => true
  | Some cat =>
      match has_category cat "Non-interactive scenery",
            has_category cat "Discontinued content" with
      | Ok VNone, Ok VNone => true
      | _, _ => false
      end
  end.

(** The [Image] printout is empty or starts with a page (vacuous without
    the key). *)
Definition image_well_typed (po : gmap string (list value)) : bool :=
  match po !! "Image" with
  | Some (VPage _ :: _) | Some [] | None => true
  | Some (_ :: _) => false
  end.

(** The loop of lines 107-202 with its two accumulators. *)
Fixpoint normalize (items : list (string * raw_record))
    (data : list monster) (required_imgs : list string)
  : result (list monster * list string) :=
  match items with
  | [] => Ok (data, required_imgs)
  | (k, v) :: rest =>
      o ← process_record k v;
      match o with
      | None => normalize rest data required_imgs
      | Some m =>
          normalize rest (data ++ [m])
            (if String.eqb (image m) "" then required_imgs
             else required_imgs ++ [image m])
      end
  end.

(** ** The fetch loop *)

(** [d[k] = v] on an insertion-ordered dictionary *)
Fixpoint dict_set {V} (d : list (string * V)) (k : string) (v : V) : list (string * V) :=
  match d with
  | [] => [(k, v)]
  | (k', v') :: tl =>
      if String.eqb k' k then (k', v) :: tl else (k', v') :: dict_set tl k v
  end.

(** [d1 | d2] *)
Definition dict_union {V} (d1 d2 : list (string * V)) : list (string * V) :=
  foldl (fun d kv => dict_set d kv.1 kv.2) d1 d2.

Record query_obj := { results : option (list (string * raw_record)) }.

(** The decoded body of one answer of the ask API. *)
Record response := {
  query : option query_obj;
  query_continue_offset : option Z
}.

(** The remote API: the answer to the [n]-th request, made with the
    given offset. *)
Definition api_t := nat -> Z -> response.

(** [while True] of [get_monster_data]; [calls] counts the requests made
    so far, [None] means that the fuel ran out before a [break]. *)
Fixpoint fetch_loop (api : api_t) (fuel calls : nat)
    (monsters : list (string * raw_record)) (offset : Z)
  : option (list (string * raw_record) * nat) :=
  match fuel with
  | O => None
  | S fuel' =>
      let data := api calls offset in
      match query data with
      | None => Some (monsters, S calls)
      | Some q =>
          match results q with
          | None => Some (monsters, S calls)
          | Some res =>
              let monsters := dict_union monsters res in
              match query_continue_offset data with
              | None => Some (monsters, S calls)
              | Some c =>
                  if (c <? offset)%Z then Some (monsters, S calls)
                  else fetch_loop api fuel' (S calls) monsters c
              end
          end
      end
  end.

Definition get_monster_data (api : api_t) (fuel : nat)
  : option (list (string * raw_record) * nat) :=
  fetch_loop api fuel 0 [] 0%Z.

(** ** The files and the image download loop *)

Definition FILE_NAME : string := "../cdn/json/monsters.json".
Definition WIKI_BASE : string := "https://oldschool.runescape.wiki".
Definition IMG_PATH : string := "../cdn/monsters/".

Record http_response := { status_code : Z; content : list byte }.

(** What a file holds: the bytes written by [f.write(r.content)], or the
    text that [json.dump(data, f, ensure_ascii=False, indent=2)] writes
    for a list of records. *)
Inductive file_content :=
| Bytes (body : list byte)
| Dump (data : list monster).

(** The part of the file system that a run does not change.  [resolve]
    gives the file that a path string designates once the directories,
    the dots, the repeated slashes and the links on the way are followed:
    two path strings may designate one file, and a path that cannot be
    walked (a directory on the way is not there) designates none.
    [writable] tells whether a file may be created or truncated there. *)
Record fs_env := {
  resolve : string -> option string;
  writable : string -> bool
}.

(** The part of the outside world that a run changes: the regular files,
    by the file they are, and the log of the paths opened for writing. *)
Record world := {
  files : gmap string file_content;
  opened : list string
}.

Record counters := {
  success_img_dls : nat;
  failed_img_dls : nat;
  skipped_img_dls : nat
}.

(** [os.path.isfile(path)]: the path leads to a regular file. *)
Definition isfile (env : fs_env) (w : world) (path : string) : bool :=
  match resolve env path with
  | Some f => bool_decide (is_Some (files w !! f))
  | None => false
  end.

(** [open(path, 'w')] and [open(path, 'wb')] do not raise. *)
Definition can_open (env : fs_env) (path : string) : bool :=
  match resolve env path with
  | Some f => writable env f
  | None => false
  end.

(** [with open(path, mode) as f: ...] for the modes ['w'] and ['wb'], the
    body of the [with] writing [body]: [open] creates or truncates the
    file, or raises an [OSError] (a [FileNotFoundError], a
    [PermissionError], ...) that nothing catches. *)
Definition write_file (env : fs_env) (w : world) (path : string)
    (body : file_content) : result world :=
  match resolve env path with
  | Some f =>
      if writable env f
      then Ok {| files := <[f := body]> (files w); opened := opened w ++ [path] |}
      else Raise (OSError path)
  | None => Raise (OSError path)
  end.

Definition add_success (c : counters) : counters :=
  {| success_img_dls := success_img_dls c + 1;
     failed_img_dls := failed_img_dls c;
     skipped_img_dls := skipped_img_dls c |}.

Definition add_failed (c : counters) : counters :=
  {| success_img_dls := success_img_dls c;
     failed_img_dls := failed_img_dls c + 1;
     skipped_img_dls := skipped_img_dls c |}.

Definition add_skipped (c : counters) : counters :=
  {| success_img_dls := success_img_dls c;
     failed_img_dls := failed_img_dls c;
     skipped_img_dls := skipped_img_dls c + 1 |}.

(** One turn of the loop of lines 217-233. *)
Definition download_step (env : fs_env) (server : string -> http_response)
    (st : world * counters) (img : string) : result (world * counters) :=
  let '(w, c) := st in
  if isfile env w (IMG_PATH +:+ img) then Ok (w, add_skipped c)
  else
    let r := server (WIKI_BASE +:+ "/w/Special:Filepath/" +:+ img) in
    if (status_code r =? 200)%Z then
      w' ← write_file env w (IMG_PATH +:+ img) (Bytes (content r));
      Ok (w', add_success c)
    else Ok (w, add_failed c).

Definition no_dls : counters :=
  {| success_img_dls := 0; failed_img_dls := 0; skipped_img_dls := 0 |}.

(** The turns of the loop from a given state; an exception ends it. *)
Fixpoint download_loop (env : fs_env) (server : string -> http_response)
    (st : world * counters) (imgs : list string) : result (world * counters) :=
  match imgs with
  | [] => Ok st
  | img :: rest =>
      st' ← download_step env server st img;
      download_loop env server st' rest
  end.

(** The loop over the required images, in the order [imgs] in which the
    set happens to be enumerated. *)
Definition download_images (env : fs_env) (server : string -> http_response)
    (w : world) (imgs : list string) : result (world * counters) :=
  download_loop env server (w, no_dls) imgs.

(** The number of images the loop has gone through. *)
Definition total (c : counters) : nat :=
  success_img_dls c + failed_img_dls c + skipped_img_dls c.

(** How many images of [l] satisfy [P]. *)
Fixpoint count_imgs (P : string -> bool) (l : list string) : nat :=
  match l with
  | [] => 0
  | img :: l' => (if P img then 1 else 0) + count_imgs P l'
  end.

(** The answer of the file path endpoint for [img] is a 200. *)
Definition ok200 (server : string -> http_response) (img : string) : bool :=
  (status_code (server (WIKI_BASE +:+ "/w/Special:Filepath/" +:+ img)) =? 200)%Z.

(** The file of the cache that the name [img] designates. *)
Definition img_file (env : fs_env) (img : string) : option string :=
  resolve env (IMG_PATH +:+ img).

(** No two names of [l] designate the same file of the cache. *)
Definition distinct_files (env : fs_env) (l : list string) : Prop :=
  NoDup (omap (img_file env) l).

(** Lines 204-237: dump the records to [FILE_NAME], then download the
    images of the set [set(required_imgs)]. *)
Definition main_from (env : fs_env) (wiki_data : list (string * raw_record))
    (server : string -> http_response) (w : world) : result (world * counters) :=
  '(data, required_imgs) ← normalize wiki_data [] [];
  w1 ← write_file env w FILE_NAME (Dump data);
  download_images env server w1 (elements (list_to_set required_imgs : gset string)).

Definition main (api : api_t) (fuel : nat) (env : fs_env)
    (server : string -> http_response) (w : world)
  : option (result (world * counters)) :=
  match get_monster_data api fuel with
  | None => None
  | Some (wiki_data, _) => Some (main_from env wiki_data server w)
  end.

(** ** The statements of the specification, in its own words *)

Module Spec.

Definition is_alpha (c : ascii) : bool :=
  let n := nat_of_ascii c in
  ((65 <=? n)%nat && (n <=? 90)%nat) || ((97 <=? n)%nat && (n <=? 122)%nat).

Fixpoint all_chars (P : ascii -> bool) (s : string) : bool :=
  match s with
  | EmptyString => true
  | String c s' => P c && all_chars P s'
  end.

(** The key matches the pattern: start of the string, one or more
    letters, a colon. *)
Definition namespace_key (k : string) : Prop :=
  exists p rest,
    k = p +:+ ":" +:+ rest /\ p <> "" /\ all_chars is_alpha p = true.

Fixpoint drop_chars (n : nat) (s : string) : string :=
  match n, s with
  | S n', String _ s' => drop_chars n' s'
  | _, _ => s
  end.

(** [s] with its leading [p] stripped, otherwise [s] itself. *)
Definition strip_prefix (p s : string) : string :=
  if String.prefix p s then drop_chars (String.length p) s else s.

Definition no_char (sep : ascii) (s : string) : bool :=
  all_chars (fun c => negb (Ascii.eqb c sep)) s.

End Spec.

(** ** Sample inputs *)

Module Sample.

(** A record with every printout that [main] reads. *)
Definition po_full (cat hp idv img : list value) : gmap string (list value) :=
  list_to_map
    [("Category", cat); ("NPC ID", idv); ("Image", img);
     ("Combat level", [VInt 3]); ("Attack speed", [VInt 4]); ("Size", [VInt 1]);
     ("Attack level", [VInt 10]); ("Defence level", [VInt 11]); ("Hitpoints", hp);
     ("Magic level", [VInt 12]); ("Ranged level", [VInt 13]);
     ("Strength level", [VInt 14]);
     ("Attack bonus", []); ("Magic Damage bonus", []); ("Magic attack bonus", []);
     ("Range attack bonus", []); ("Ranged Strength bonus", []);
     ("Strength bonus", [VInt 7]);
     ("Crush defence bonus", []); ("Magic defence bonus", []);
     ("Range defence bonus", []); ("Slash defence bonus", []);
     ("Stab defence bonus", []); ("Monster attribute", [VStr "undead"])].

Definition rec_full (cat hp idv img : list value) : raw_record :=
  {| printouts := Some (po_full cat hp idv img) |}.

Definition goblin (hp : list value) : raw_record :=
  rec_full [VPage "Category:Monsters"] hp [VInt 3029] [VPage "File:Goblin.png"].

Definition empty_world : world :=
  {| files := ∅; opened := [] |}.

(** A flat cache: every path string is a file of its own, and every
    file may be written. *)
Definition env_flat : fs_env :=
  {| resolve := fun path => Some path; writable := fun _ => true |}.

Definition page (res : list (string * raw_record)) (cont : option Z) : response :=
  {| query := Some {| results := Some res |}; query_continue_offset := cont |}.

(** An API that answers every request with the same continuation
    offset 500. *)
Definition api_stuck : api_t :=
  fun _ _ => page [("Goblin", goblin [VInt 5])] (Some 500%Z).

(** Two answers with continuation offset 500, then a last page without
    continuation. *)
Definition api_500_500_end : api_t :=
  fun n _ =>
    match n with
    | 0 => page [("Goblin", goblin [VInt 5])] (Some 500%Z)
    | 1 => page [("Rat", goblin [VInt 2])] (Some 500%Z)
    | _ => page [("Cow", goblin [VInt 8])] None
    end.

Definition server_404 : string -> http_response :=
  fun _ => {| status_code := 404; content := [] |}.

Definition server_foo (url : string) : http_response :=
  if String.eqb url "https://oldschool.runescape.wiki/w/Special:Filepath/Foo.png"
  then {| status_code := 200; content := [x89; x50; x4e; x47] |}
  else {| status_code := 404; content := [x00] |}.

End Sample.

(** ** The monster literal, read without the error plumbing *)

(** [get_printout_value(po[key]) or 0] for a key that is there *)
Definition read_field (po : gmap string (list value)) (key : string) : value :=
  py_or (get_printout_value (po !!! key)) (VInt 0).

(** The dictionary of lines 139-171 for printouts that hold every key
    and whose [Image] printout is empty or starts with a page. *)
Definition monster_literal (k : string) (po : gmap string (list value)) : monster :=
  {| id := get_printout_value (po !!! "NPC ID");
     name := key_name k;
     version := key_version k;
     image := match po !!! "Image" with
              | VPage f :: _ => PyStr.replace "File:" "" f
              | _ => ""
              end;
     level := read_field po "Combat level";
     speed := read_field po "Attack speed";
     size := read_field po "Size";
     skills := [read_field po "Attack level"; read_field po "Defence level";
                read_field po "Hitpoints"; read_field po "Magic level";
                read_field po "Ranged level"; read_field po "Strength level"];
     offensive := [read_field po "Attack bonus"; read_field po "Magic Damage bonus";
                   read_field po "Magic attack bonus";
                   read_field po "Range attack bonus";
                   read_field po "Ranged Strength bonus";
                   read_field po "Strength bonus"];
     defensive := [read_field po "Crush defence bonus";
                   read_field po "Magic defence bonus";
                   read_field po "Range defence bonus";
                   read_field po "Slash defence bonus";
                   read_field po "Stab defence bonus"];
     attributes := po !!! "Monster attribute" |}.

(** [c] is a page whose title is not the category looked for. *)
Definition other_page (category : string) (c : value) : Prop :=
  exists g, c = VPage g /\ g <> "Category:" +:+ category.

Definition is_page (c : value) : Prop := exists g, c = VPage g.

(** The images that [main] appends to [required_imgs] for the records
    of [data]. *)
Definition images_of (data : list monster) : list string :=
  List.filter (fun s => negb (String.eqb s "")) (image <$> data).

(** What the pruning and the earlier tests leave through. *)
Definition kept_ok (m : monster) : Prop :=
  is_None (id m) = false /\
  (exists h, skills m !! 2%nat = Some h /\ eq_zero h = false) /\
  PyStr.contains "Challenge Mode" (version m) = false /\
  PyStr.contains "(historical)" (PyStr.lower (name m)) = false /\
  PyStr.contains "(pvm arena)" (PyStr.lower (name m)) = false /\
  PyStr.contains "(deadman: apocalypse)" (PyStr.lower (name m)) = false.

(** A numeric slot of the output holds the default 0 or a truthy value,
    never [None], [False], the empty string or a second zero-like value. *)
Definition filled (x : value) : Prop := x = VInt 0 \/ truthy x = true.

Module Sample2.

(** Two pages with growing continuation offsets, then an answer
    without [query]. *)
Definition api_two_pages : api_t :=
  fun n _ =>
    match n with
    | 0 => Sample.page [("Goblin", Sample.goblin [VInt 5])] (Some 500%Z)
    | 1 => Sample.page [("Rat", Sample.goblin [VInt 2])] (Some 1000%Z)
    | _ => {| query := None; query_continue_offset := Some 1500%Z |}
    end.

Definition scenery : raw_record :=
  {| printouts := Some {[ "Category" :=
       [VPage "Category:Monsters"; VPage "Category:Discontinued content"] ]} |}.

Definition vardorvis (hp : list value) : raw_record :=
  Sample.rec_full [VPage "Category:Monsters"] hp [VInt 12223]
                  [VPage "File:Vardorvis.png"].

Definition wiki : list (string * raw_record) :=
  [("Goblin", Sample.goblin [VInt 5]);
   ("File:Goblin.png", Sample.goblin [VInt 5]);
   ("Rat", Sample.rec_full [] [VInt 2] [VInt 2854] []);
   ("Ghost", Sample.goblin []);
   ("Cow", Sample.rec_full [] [VInt 8] [VInt 2790] [VPage "File:Foo.png"])].

Definition cached_world : world :=
  {| files := {[ "../cdn/monsters/Goblin.png" := Bytes [x01; x02] ]};
     opened := [] |}.

(** A cache directory without sub-directory, in which a doubled slash
    leads to the same file as a single one. *)
Definition env_posix : fs_env :=
  {| resolve := fun path =>
       if String.eqb path "../cdn/monsters//a.png"
       then Some "../cdn/monsters/a.png"
       else if String.eqb path "../cdn/monsters/sub/Foo.png" then None
       else Some path;
     writable := fun _ => true |}.


(** A server that has the image [a.png] under that name only. *)
Definition server_a (url : string) : http_response :=
  if String.eqb url "https://oldschool.runescape.wiki/w/Special:Filepath/a.png"
  then {| status_code := 200; content := [x0a] |}
  else {| status_code := 404; content := [] |}.

(** A world in which the dump of an earlier run is there. *)
Definition dumped_world : world :=
  {| files := {[ "../cdn/json/monsters.json" := Dump [];
                 "../cdn/monsters/Goblin.png" := Bytes [x01; x02] ]};
     opened := [] |}.

End Sample2.

(** * Strings *)

Section string_facts.

Import PyStr Spec.

Lemma append_nil s : "" +:+ s = s.
Proof. reflexivity. Qed.

Lemma append_cons c s t : String c s +:+ t = String c (s +:+ t).
Proof. reflexivity. Qed.

Lemma prefix_append p s : String.prefix p (p +:+ s) = true.
Proof.
  induction p as [|c p IH]; rewrite ?append_nil, ?append_cons; simpl.
  - by destruct s.
  - destruct (ascii_dec c c); [exact IH | congruence].
Qed.

Lemma prefix_drop p s :
  String.prefix p s = true -> s = p +:+ drop_chars (String.length p) s.
Proof.
  revert s; induction p as [|c p IH]; intros [|d s] H; simpl in *; try done.
  destruct (ascii_dec c d) as [->|]; [|done].
  rewrite append_cons. f_equal. by apply IH.
Qed.

Lemma replace_from_skip old new t s :
  replace_from old new (String.length t) (t +:+ s) = replace_from old new 0 s.
Proof.
  induction t as [|c t IH]; rewrite ?append_nil, ?append_cons; [done|].
  exact IH.
Qed.

Lemma replace_prefix old new s :
  old <> "" -> replace old new (old +:+ s) = new +:+ replace old new s.
Proof.
  intros Hne. unfold replace. destruct old as [|c old]; [done|].
  rewrite append_cons. cbn [replace_from].
  rewrite <- append_cons, prefix_append. cbn [String.length]. rewrite Nat.sub_1_r. simpl Nat.pred.
  by rewrite replace_from_skip.
Qed.

Lemma replace_absent old new s :
  contains old s = false -> replace old new s = s.
Proof.
  unfold replace. induction s as [|c s IH]; intros H; [done|].
  cbn [contains] in H. apply orb_false_iff in H as [Hp Hc].
  cbn [replace_from]. rewrite Hp. f_equal. by apply IH.
Qed.

(** Where [old] occurs in [s] as its leading prefix at most, [replace]
    is the stripping of that prefix. *)
Lemma replace_strip_prefix old s :
  old <> "" ->
  contains old (strip_prefix old s) = false ->
  replace old "" s = strip_prefix old s.
Proof.
  intros Hne. unfold strip_prefix.
  destruct (String.prefix old s) eqn:Hp; intros Hc.
  - rewrite (prefix_drop _ _ Hp) at 1.
    rewrite replace_prefix by done. rewrite append_nil. by apply replace_absent.
  - by apply replace_absent.
Qed.

Lemma split1_absent sep s : no_char sep s = true -> split1 sep s = [s].
Proof.
  unfold no_char. induction s as [|c s IH]; simpl; [done|].
  intros [Hc Hs]%andb_true_iff. apply negb_true_iff in Hc.
  by rewrite Hc, IH.
Qed.

Lemma split1_first sep a b :
  no_char sep a = true -> split1 sep (a +:+ String sep b) = [a; b].
Proof.
  unfold no_char. induction a as [|c a IH]; rewrite ?append_nil, ?append_cons; simpl.
  - by rewrite Ascii.eqb_refl.
  - intros [Hc Hs]%andb_true_iff. apply negb_true_iff in Hc.
    by rewrite Hc, IH.
Qed.

Lemma rsplit1_absent sep s : no_char sep s = true -> rsplit1 sep s = [s].
Proof.
  unfold no_char. induction s as [|c s IH]; simpl; [done|].
  intros [Hc Hs]%andb_true_iff. apply negb_true_iff in Hc.
  by rewrite IH, Hc.
Qed.

Lemma rsplit1_last sep a b :
  no_char sep b = true -> rsplit1 sep (a +:+ String sep b) = [a; b].
Proof.
  intros Hb. induction a as [|c a IH]; rewrite ?append_nil, ?append_cons.
  - simpl. by rewrite (rsplit1_absent _ _ Hb), Ascii.eqb_refl.
  - cbn [rsplit1]. by rewrite IH.
Qed.

Lemma is_alpha_A_z c : is_alpha c = true -> in_A_z c = true.
Proof.
  unfold is_alpha, in_A_z. cbv zeta.
  rewrite orb_true_iff, !andb_true_iff, !Nat.leb_le. lia.
Qed.

Lemma in_A_z_colon c : in_A_z c = true -> Ascii.eqb c ":" = false.
Proof.
  intros H. destruct (Ascii.eqb_spec c ":") as [->|]; [|done].
  by vm_compute in H.
Qed.

(** The deterministic scan is the regular expression: some prefix made
    of class characters is followed by a colon. *)
Lemma match_namespace_spec s :
  match_namespace s = true <->
  exists p rest, s = p +:+ ":" +:+ rest /\ all_chars in_A_z p = true.
Proof.
  split.
  - induction s as [|c s IH]; simpl; [done|].
    destruct (Ascii.eqb_spec c ":") as [->|Hc].
    + intros _. by exists "", s.
    + destruct (in_A_z c) eqn:Hz; [|done].
      intros (p & rest & -> & Hp)%IH.
      exists (String c p), rest. split; [done|]. simpl. by rewrite Hz.
  - intros (p & rest & -> & Hp). induction p as [|c p IH].
    + done.
    + simpl in Hp. apply andb_true_iff in Hp as [Hc Hp].
      rewrite append_cons. simpl. by rewrite (in_A_z_colon _ Hc), Hc, IH.
Qed.

Lemma all_chars_impl (P Q : ascii -> bool) s :
  (forall c, P c = true -> Q c = true) ->
  all_chars P s = true -> all_chars Q s = true.
Proof.
  intros HPQ. induction s as [|c s IH]; simpl; [done|].
  intros [Hc Hs]%andb_true_iff. by rewrite (HPQ _ Hc), IH.
Qed.

Lemma namespace_key_matches k : namespace_key k -> match_namespace k = true.
Proof.
  intros (p & rest & -> & _ & Hp). apply match_namespace_spec.
  exists p, rest. split; [done|].
  eapply all_chars_impl; [apply is_alpha_A_z | done].
Qed.

Lemma key_name_rsplit k : key_name k = default "" (rsplit1 "#" k !! 0%nat).
Proof. unfold key_name. cbv zeta. by destruct (String.eqb_spec (default "" (rsplit1 "#" k !! 0%nat)) ""). Qed.

(** Keys without a hash: the name is the key and the version is empty. *)
Lemma key_no_hash k :
  no_char "#" k = true -> key_name k = k /\ key_version k = "".
Proof.
  intros H. rewrite key_name_rsplit. unfold key_version.
  by rewrite (rsplit1_absent _ _ H), (split1_absent _ _ H).
Qed.

(** The version is what follows the first hash of the key. *)
Lemma key_version_first a b :
  no_char "#" a = true -> key_version (a +:+ "#" +:+ b) = b.
Proof.
  intros H. unfold key_version.
  change (a +:+ "#" +:+ b) with (a +:+ String "#" b).
  by rewrite (split1_first _ _ _ H).
Qed.

(** The name is what precedes the last hash of the key. *)
Lemma key_name_last a b :
  no_char "#" b = true -> key_name (a +:+ "#" +:+ b) = a.
Proof.
  intros H. rewrite key_name_rsplit.
  change (a +:+ "#" +:+ b) with (a +:+ String "#" b).
  by rewrite (rsplit1_last _ _ _ H).
Qed.

(** Keys with exactly one hash are cut in two at that hash. *)
Lemma key_one_hash a b :
  no_char "#" a = true -> no_char "#" b = true ->
  key_name (a +:+ "#" +:+ b) +:+ "#" +:+ key_version (a +:+ "#" +:+ b)
  = a +:+ "#" +:+ b.
Proof. intros Ha Hb. by rewrite key_name_last, key_version_first. Qed.

End string_facts.

(** * One record *)

Section record_facts.

Import PyStr Spec.

Lemma bind_Ok {A B} (a : A) (f : A -> result B) : (Ok a ≫= f) = f a.
Proof. reflexivity. Qed.

Lemma bind_Raise {A B} e (f : A -> result B) : (Raise e ≫= f) = Raise e.
Proof. reflexivity. Qed.

Lemma bind_inv {A B} (r : result A) (f : A -> result B) b :
  (r ≫= f) = Ok b -> exists a, r = Ok a /\ f a = Ok b.
Proof. destruct r as [a|e]; [eauto | done]. Qed.

Lemma getitem_inv po key l : getitem po key = Ok l -> po !! key = Some l.
Proof. unfold getitem. destruct (po !! key); naive_solver. Qed.

Lemma field_inv po key x :
  field po key = Ok x ->
  exists l, po !! key = Some l /\ x = py_or (get_printout_value l) (VInt 0).
Proof.
  unfold field. intros (l & Hl%getitem_inv & [= <-])%bind_inv. eauto.
Qed.

Lemma getitem_Some po key l : po !! key = Some l -> getitem po key = Ok l.
Proof. unfold getitem. by intros ->. Qed.

Lemma field_Some po key l :
  po !! key = Some l -> field po key = Ok (py_or (get_printout_value l) (VInt 0)).
Proof. unfold field. by intros ->%getitem_Some. Qed.

(** What the extraction has read when it hands a monster to the
    pruning step. *)
Lemma build_monster_inv k v m :
  build_monster k v = Ok (Some m) ->
  exists po npc img hp,
    printouts v = Some po /\
    po !! "NPC ID" = Some npc /\ po !! "Image" = Some img /\
    po !! "Hitpoints" = Some hp /\
    id m = get_printout_value npc /\
    name m = key_name k /\ version m = key_version k /\
    match img with
    | [] => image m = ""
    | c :: _ => exists f, c = VPage f /\ image m = replace "File:" "" f
    end /\
    skills m !! 2%nat = Some (py_or (get_printout_value hp) (VInt 0)) /\
    length (skills m) = 6%nat.
Proof.
  unfold build_monster. destruct (printouts v) as [po|]; [|done].
  destruct (contains _ _); [done|]. destruct (match_namespace k); [done|].
  intros H.
  apply bind_inv in H as (cat & _ & H).
  apply bind_inv in H as (c1 & _ & H).
  apply bind_inv in H as (c2 & _ & H).
  destruct (truthy c2); [done|].
  apply bind_inv in H as (npc & Hnpc%getitem_inv & H).
  apply bind_inv in H as (img & Himg%getitem_inv & H).
  apply bind_inv in H as (im & Him & H).
  do 3 apply bind_inv in H as (? & _ & H).
  do 2 apply bind_inv in H as (? & _ & H).
  apply bind_inv in H as (s2 & (hp & Hhp & ->)%field_inv & H).
  do 15 apply bind_inv in H as (? & _ & H).
  injection H as <-. cbn [id name version image skills].
  exists po, npc, img, hp. repeat split; try done.
  destruct img as [|c ?]; [by injection Him as <-|].
  apply bind_inv in Him as (f & Hf & [= <-]).
  exists f. split; [|done]. destruct c; simpl in Hf; congruence.
Qed.

Lemma process_record_inv k v m :
  process_record k v = Ok (Some m) ->
  exists m0, build_monster k v = Ok (Some m0) /\ prune m0 = false /\
             m = vardorvis_override m0.
Proof.
  unfold process_record. intros ([m0|] & Hb & H)%bind_inv; [|done].
  destruct (prune m0) eqn:Hp; [done|]. injection H as <-. eauto.
Qed.

Lemma override_image m : image (vardorvis_override m) = image m.
Proof. unfold vardorvis_override. by repeat case_match. Qed.

Lemma override_name m : name (vardorvis_override m) = name m.
Proof. unfold vardorvis_override. by repeat case_match. Qed.

Lemma override_version m : version (vardorvis_override m) = version m.
Proof. unfold vardorvis_override. by repeat case_match. Qed.

Lemma override_hitpoints m :
  skills (vardorvis_override m) !! 2%nat = skills m !! 2%nat.
Proof.
  unfold vardorvis_override. repeat case_match; try done;
    cbn [skills set_skills]; by rewrite !list_lookup_insert_ne.
Qed.

(** A record that survives the pruning has a hitpoints entry different
    from 0 and an identifier different from [None]. *)
Lemma survivor_invariant k v m :
  process_record k v = Ok (Some m) ->
  (exists h, skills m !! 2%nat = Some h /\ eq_zero h = false) /\
  is_None (id m) = false.
Proof.
  intros (m0 & Hb & Hp & ->)%process_record_inv.
  apply build_monster_inv in Hb
    as (po & npc & img & hp & _ & _ & _ & _ & _ & _ & _ & _ & Hs & _).
  unfold prune in Hp. rewrite Hs in Hp. simpl in Hp.
  rewrite !orb_false_iff in Hp. destruct Hp as [[[[Hz Hn] _] _] _].
  rewrite override_hitpoints, Hs. split; [eauto|].
  unfold vardorvis_override. by repeat case_match.
Qed.

End record_facts.

Section extraction.

Import PyStr Spec.

Ltac have_key H key :=
  let l := fresh "l" in
  let E := fresh "E" in
  destruct (H key) as [l E]; [compute_done|].

Ltac read_keys :=
  repeat first
    [ rewrite bind_Ok
    | erewrite getitem_Some by eassumption
    | erewrite field_Some by eassumption ].

(** A record with every key, that is skipped by none of the tests made
    before the extraction, gets as far as the pruning step. *)
Lemma build_monster_ok k v po :
  printouts v = Some po ->
  contains "Challenge Mode" (key_version k) = false ->
  match_namespace k = false ->
  category_passes po = true ->
  image_well_typed po = true ->
  (forall key, key ∈ accessed_keys -> is_Some (po !! key)) ->
  exists m, build_monster k v = Ok (Some m).
Proof.
  intros Hpo Hcm Hns Hcat Himg Hkeys.
  unfold build_monster. rewrite Hpo, Hcm, Hns.
  unfold category_passes in Hcat. unfold image_well_typed in Himg.
  have_key Hkeys "Category". rewrite E in Hcat.
  rewrite !(getitem_Some _ _ _ E), bind_Ok.
  destruct (has_category l "Non-interactive scenery") as [[]|]; try done.
  rewrite bind_Ok. cbn [truthy]. rewrite bind_Ok.
  destruct (has_category l "Discontinued content") as [[]|]; try done.
  rewrite bind_Ok. cbn [truthy].
  have_key Hkeys "NPC ID". have_key Hkeys "Image". rewrite E1 in Himg.
  have_key Hkeys "Combat level". have_key Hkeys "Attack speed".
  have_key Hkeys "Size". have_key Hkeys "Attack level".
  have_key Hkeys "Defence level". have_key Hkeys "Hitpoints".
  have_key Hkeys "Magic level". have_key Hkeys "Ranged level".
  have_key Hkeys "Strength level". have_key Hkeys "Attack bonus".
  have_key Hkeys "Magic Damage bonus". have_key Hkeys "Magic attack bonus".
  have_key Hkeys "Range attack bonus". have_key Hkeys "Ranged Strength bonus".
  have_key Hkeys "Strength bonus". have_key Hkeys "Crush defence bonus".
  have_key Hkeys "Magic defence bonus". have_key Hkeys "Range defence bonus".
  have_key Hkeys "Slash defence bonus". have_key Hkeys "Stab defence bonus".
  have_key Hkeys "Monster attribute".
  read_keys.
  destruct l1 as [|[] ?]; try done; cbn [get_fulltext]; read_keys; eauto.
Qed.

Lemma first_missing_Some po key :
  first_missing po = Some key -> key ∈ accessed_keys /\ po !! key = None.
Proof.
  unfold first_missing. intros [Hin Hm]%List.find_some.
  split; [by apply list_elem_of_In|].
  unfold missing in Hm. by destruct (po !! key).
Qed.

Lemma first_missing_None po :
  first_missing po = None -> forall key, key ∈ accessed_keys -> is_Some (po !! key).
Proof.
  unfold first_missing. intros H key Hin%list_elem_of_In.
  pose proof (List.find_none _ _ H key Hin) as Hm.
  unfold missing in Hm. by destruct (po !! key).
Qed.

Ltac read_key po key :=
  let E := fresh "E" in
  match goal with
  | Hfm : _ = Some _ |- _ =>
      cbn [List.find] in Hfm; unfold missing in Hfm at 1;
      destruct (po !! key) eqn:E;
      [ first [ rewrite (getitem_Some _ _ _ E)
              | rewrite (field_Some _ _ _ E) ];
        rewrite bind_Ok
      | injection Hfm as <-; unfold field, getitem; by rewrite E ]
  end.

(** The extraction reads the keys in order and raises at the first one
    that is not there. *)
Lemma build_monster_missing k v po key :
  printouts v = Some po ->
  contains "Challenge Mode" (key_version k) = false ->
  match_namespace k = false ->
  category_passes po = true ->
  image_well_typed po = true ->
  first_missing po = Some key ->
  build_monster k v = Raise (KeyError key).
Proof.
  intros Hpo Hcm Hns Hcat Himg Hfm.
  unfold build_monster. rewrite Hpo, Hcm, Hns.
  unfold category_passes in Hcat. unfold image_well_typed in Himg.
  unfold first_missing, accessed_keys in Hfm.
  read_key po "Category".
  destruct (has_category l "Non-interactive scenery") as [[]|]; try done.
  rewrite bind_Ok. cbn [truthy].
  rewrite bind_Ok.
  destruct (has_category l "Discontinued content") as [[]|]; try done.
  rewrite bind_Ok. cbn [truthy].
  read_key po "NPC ID". read_key po "Image".
  assert (exists im, match l1 with
                     | [] => Ok ""
                     | c :: _ => f ← get_fulltext c; Ok (replace "File:" "" f)
                     end = Ok im) as [im ->].
  { destruct l1 as [|[] ?]; try done; cbn [get_fulltext]; rewrite ?bind_Ok; eauto. }
  rewrite bind_Ok.
  read_key po "Combat level". read_key po "Attack speed".
  read_key po "Size". read_key po "Attack level".
  read_key po "Defence level". read_key po "Hitpoints".
  read_key po "Magic level". read_key po "Ranged level".
  read_key po "Strength level". read_key po "Attack bonus".
  read_key po "Magic Damage bonus". read_key po "Magic attack bonus".
  read_key po "Range attack bonus". read_key po "Ranged Strength bonus".
  read_key po "Strength bonus". read_key po "Crush defence bonus".
  read_key po "Magic defence bonus". read_key po "Range defence bonus".
  read_key po "Slash defence bonus". read_key po "Stab defence bonus".
  read_key po "Monster attribute".
  done.
Qed.

(** The loop stops at the first record whose processing raises. *)
Lemma normalize_raise pre k v post e data imgs :
  Forall (fun kv => exists o, process_record kv.1 kv.2 = Ok o) pre ->
  process_record k v = Raise e ->
  normalize (pre ++ (k, v) :: post) data imgs = Raise e.
Proof.
  intros Hpre Hkv. revert data imgs.
  induction Hpre as [|[k' v'] pre [o Ho] _ IH]; intros data imgs; simpl.
  - by rewrite Hkv.
  - simpl in Ho. rewrite Ho, bind_Ok. destruct o; apply IH.
Qed.

End extraction.

(** * Claims about the normalisation of one record *)

Section record_claims.

Import PyStr Spec.

Lemma missing_printouts_skipped k v :
  printouts v = None -> process_record k v = Ok None.
Proof. unfold process_record, build_monster. by intros ->. Qed.

(** C5: every record whose key starts with one or more letters followed
    by a colon is skipped by the loop body, whatever its other fields
    are (with or without printouts, with or without the keys, any
    category, any hitpoints), so the loop goes on with the rest and
    appends nothing for it. *)
Theorem namespace_key_excluded k v :
  namespace_key k ->
  process_record k v = Ok None /\
  forall rest data imgs,
    normalize ((k, v) :: rest) data imgs = normalize rest data imgs.
Proof.
  intros Hk%namespace_key_matches.
  assert (process_record k v = Ok None) as Hp.
  { unfold process_record, build_monster.
    destruct (printouts v); [|done].
    destruct (contains _ _); [done|]. by rewrite Hk. }
  split; [done|]. intros rest data imgs. simpl. by rewrite Hp.
Qed.

Lemma namespace_key_excluded_witness :
  process_record "File:Goblin.png" (Sample.goblin [VInt 5]) = Ok None /\
  forall rest data imgs,
    normalize (("File:Goblin.png", Sample.goblin [VInt 5]) :: rest) data imgs
    = normalize rest data imgs.
Proof.
  apply namespace_key_excluded.
  exists "File", "Goblin.png".
  split; [reflexivity | split; [discriminate | reflexivity]].
Defined.

(** C6 (the code at a key with two hashes): the version is cut at the
    first hash and the name at the last one, so the two overlap and
    name + '#' + version is not the key. *)
Theorem key_two_hashes_overlap :
  key_name "A#B#C" = "A#B" /\ key_version "A#B#C" = "B#C" /\
  key_name "A#B#C" +:+ "#" +:+ key_version "A#B#C" <> "A#B#C" /\
  exists m, process_record "A#B#C" (Sample.goblin [VInt 5]) = Ok (Some m) /\
            name m = "A#B" /\ version m = "B#C".
Proof.
  repeat split; try done.
  eexists. split; [vm_compute; reflexivity|]. done.
Qed.




(** C3 (as stated, refuted): with a second occurrence of "File:" inside
    the file name, the image field is not the name with its leading
    prefix stripped. *)
Lemma image_inner_occurrence_removed :
  exists m,
    process_record "Goblin"
      (Sample.rec_full [] [VInt 5] [VInt 1] [VPage "File:A File:B.png"])
    = Ok (Some m) /\
    image m = "A B.png" /\
    image m <> strip_prefix "File:" "File:A File:B.png".
Proof. eexists. split; [vm_compute; reflexivity|]. done. Qed.

(** C3 (amended): for a surviving record whose Image printout starts
    with a page of fulltext [f], the image field is [f] with every
    occurrence of "File:" removed; it is [f] with its leading "File:"
    stripped whenever what is left holds no further "File:". *)
Theorem image_file_removed k v po f tl m :
  printouts v = Some po ->
  po !! "Image" = Some (VPage f :: tl) ->
  process_record k v = Ok (Some m) ->
  image m = replace "File:" "" f /\
  (contains "File:" (strip_prefix "File:" f) = false ->
   image m = strip_prefix "File:" f).
Proof.
  intros Hpo Himg (m0 & Hb & _ & ->)%process_record_inv.
  apply build_monster_inv in Hb
    as (po' & npc & img & hp & Hpo' & _ & Himg' & _ & _ & _ & _ & Him & _).
  simplify_eq. destruct Him as (f' & [= <-] & Him).
  rewrite override_image, Him. split; [done|].
  intros Hc. by apply replace_strip_prefix.
Qed.

Lemma image_file_removed_witness :
  exists m,
    process_record "Goblin"
      (Sample.rec_full [] [VInt 5] [VInt 1] [VPage "File:Foo.png"]) = Ok (Some m) /\
    image m = "Foo.png".
Proof.
  eexists. split; [vm_compute; reflexivity|].
  refine (proj2 (image_file_removed "Goblin"
            (Sample.rec_full [] [VInt 5] [VInt 1] [VPage "File:Foo.png"])
            _ "File:Foo.png" [] _ _ _ _) _).
  - reflexivity.
  - vm_compute; reflexivity.
  - vm_compute; reflexivity.
  - vm_compute; reflexivity.
Defined.

(** C7: a record of key "Vardorvis#Awakened" with hitpoints printout
    ["1000"] and NPC ID printout ["8609"] (written as strings or as
    numbers), with every key that is read and no exclusion triggered,
    is kept with name "Vardorvis", version "Awakened", skills[1] = 268
    and skills[5] = 391, whatever defence and strength levels the
    printouts hold. *)
Theorem vardorvis_awakened_override v po h i :
  printouts v = Some po ->
  first_missing po = None ->
  category_passes po = true ->
  image_well_typed po = true ->
  po !! "Hitpoints" = Some [h] -> h = VStr "1000" \/ h = VInt 1000 ->
  po !! "NPC ID" = Some [i] -> i = VStr "8609" \/ i = VInt 8609 ->
  exists m,
    process_record "Vardorvis#Awakened" v = Ok (Some m) /\
    name m = "Vardorvis" /\ version m = "Awakened" /\
    skills m !! 1%nat = Some (VInt 268) /\
    skills m !! 5%nat = Some (VInt 391).
Proof.
  intros Hpo Hfm Hcat Himg Hhp Hh Hid Hi.
  pose proof (first_missing_None _ Hfm) as Hkeys.
  destruct (build_monster_ok "Vardorvis#Awakened" v po) as [m0 Hb];
    try done.
  pose proof Hb as Hinv.
  apply build_monster_inv in Hinv
    as (po' & npc & img & hp & Hpo' & Hnpc & _ & Hhp' & Hidm & Hname & Hver
        & _ & Hs & Hlen).
  simplify_eq.
  change (key_name "Vardorvis#Awakened") with "Vardorvis" in Hname.
  change (key_version "Vardorvis#Awakened") with "Awakened" in Hver.
  assert (prune m0 = false) as Hpr.
  { unfold prune. rewrite Hs, Hidm, Hname.
    by destruct Hh as [->| ->], Hi as [->| ->]. }
  exists (vardorvis_override m0).
  split; [unfold process_record; by rewrite Hb, bind_Ok, Hpr|].
  rewrite override_name, override_version.
  split; [done|]. split; [done|].
  unfold vardorvis_override. rewrite Hname, Hver. cbn [String.eqb Ascii.eqb Bool.eqb].
  cbn [skills set_skills]. split.
  - rewrite list_lookup_insert_ne by done.
    apply list_lookup_insert_eq. lia.
  - apply list_lookup_insert_eq. rewrite length_insert. lia.
Qed.

Lemma vardorvis_awakened_override_witness :
  exists m,
    process_record "Vardorvis#Awakened"
      (Sample.rec_full [VPage "Category:Monsters"] [VStr "1000"] [VStr "8609"]
                       [VPage "File:Vardorvis.png"]) = Ok (Some m) /\
    name m = "Vardorvis" /\ version m = "Awakened" /\
    skills m !! 1%nat = Some (VInt 268) /\
    skills m !! 5%nat = Some (VInt 391).
Proof.
  eapply vardorvis_awakened_override.
  - reflexivity.
  - vm_compute; reflexivity.
  - vm_compute; reflexivity.
  - vm_compute; reflexivity.
  - vm_compute; reflexivity.
  - left; reflexivity.
  - vm_compute; reflexivity.
  - left; reflexivity.
Defined.

(** C9 (as stated, refuted): a Challenge Mode variant whose printouts
    lack every key, 'Category' included, is skipped without any error,
    and the run goes to its end. *)
Lemma missing_keys_skipped_before_extraction :
  printouts {| printouts := Some ∅ |} = Some ∅ /\
  first_missing ∅ = Some "Category" /\
  process_record "Tekton#Challenge Mode" {| printouts := Some ∅ |} = Ok None /\
  exists r,
    main_from Sample.env_flat
              [("Tekton#Challenge Mode", {| printouts := Some ∅ |})]
              Sample.server_404 Sample.empty_world = Ok r.
Proof.
  split; [done|]. split; [done|]. split; [by vm_compute|].
  eexists. vm_compute. reflexivity.
Qed.

(** C9 (amended): a record with printouts that gets to the field
    extraction (not a Challenge Mode variant, no namespace key, the
    category test passed, a well-typed Image printout) and whose
    printouts lack a key that is read makes the loop body raise
    [KeyError] for the first such key in reading order; the run aborts
    there, with nothing dumped and no image fetched, instead of skipping
    the record. *)
Theorem missing_key_aborts k v po key pre post env server w :
  printouts v = Some po ->
  contains "Challenge Mode" (key_version k) = false ->
  match_namespace k = false ->
  category_passes po = true ->
  image_well_typed po = true ->
  first_missing po = Some key ->
  Forall (fun kv => exists o, process_record kv.1 kv.2 = Ok o) pre ->
  process_record k v = Raise (KeyError key) /\
  main_from env (pre ++ (k, v) :: post) server w = Raise (KeyError key).
Proof.
  intros Hpo Hcm Hns Hcat Himg Hfm Hpre.
  assert (process_record k v = Raise (KeyError key)) as Hp.
  { unfold process_record.
    by rewrite (build_monster_missing k v po key). }
  split; [done|]. unfold main_from.
  by rewrite (normalize_raise pre k v post _ _ _ Hpre Hp).
Qed.

Lemma missing_key_aborts_witness :
  process_record "Goblin"
    {| printouts := Some (delete "Hitpoints"
         (Sample.po_full [] [VInt 5] [VInt 3029] [VPage "File:Goblin.png"])) |}
  = Raise (KeyError "Hitpoints") /\
  main_from Sample.env_flat
    ([("Rat", Sample.goblin [VInt 2])] ++
     ("Goblin",
      {| printouts := Some (delete "Hitpoints"
           (Sample.po_full [] [VInt 5] [VInt 3029] [VPage "File:Goblin.png"])) |})
     :: [("Cow", Sample.goblin [VInt 8])])
    Sample.server_404 Sample.empty_world
  = Raise (KeyError "Hitpoints").
Proof.
  eapply missing_key_aborts.
  - reflexivity.
  - vm_compute; reflexivity.
  - vm_compute; reflexivity.
  - vm_compute; reflexivity.
  - vm_compute; reflexivity.
  - vm_compute; reflexivity.
  - repeat constructor. eexists. vm_compute. reflexivity.
Defined.

End record_claims.

(** * The fetch loop *)

Section fetch_claims.

(** A page with a continuation offset that is not below the current
    offset, equal to it in particular, is followed by another request. *)
Lemma fetch_loop_continues api fuel calls monsters offset q res c :
  query (api calls offset) = Some q ->
  results q = Some res ->
  query_continue_offset (api calls offset) = Some c ->
  (offset <= c)%Z ->
  fetch_loop api (S fuel) calls monsters offset
  = fetch_loop api fuel (S calls) (dict_union monsters res) c.
Proof.
  intros Hq Hr Hc Hle. simpl. rewrite Hq, Hr, Hc.
  by rewrite (proj2 (Z.ltb_ge c offset) Hle).
Qed.

(** The loop ends, after merging the page, when the continuation offset
    is absent or below the current offset. *)
Lemma fetch_loop_stops api fuel calls monsters offset q res :
  query (api calls offset) = Some q ->
  results q = Some res ->
  match query_continue_offset (api calls offset) with
  | None => True
  | Some c => (c < offset)%Z
  end ->
  fetch_loop api (S fuel) calls monsters offset
  = Some (dict_union monsters res, S calls).
Proof.
  intros Hq Hr Hc. simpl. rewrite Hq, Hr.
  destruct (query_continue_offset _) as [c|]; [|done].
  by rewrite (proj2 (Z.ltb_lt c offset) Hc).
Qed.

Lemma fetch_stuck fuel calls monsters offset :
  (offset <= 500)%Z ->
  fetch_loop Sample.api_stuck fuel calls monsters offset = None.
Proof.
  revert calls monsters offset.
  induction fuel as [|fuel IH]; intros calls monsters offset Hle; [done|].
  erewrite fetch_loop_continues; [|reflexivity..|exact Hle].
  by apply IH.
Qed.

(** C1 (the code on an unchanged continuation offset): when every
    answer carries the offset 500 the loop never ends, whatever the
    fuel; and when the first two answers carry the offset 500 the loop
    makes a third request. *)
Theorem fetch_equal_offset_goes_on :
  (forall fuel, get_monster_data Sample.api_stuck fuel = None) /\
  (fun r => (r.1.*1, r.2)) <$> get_monster_data Sample.api_500_500_end 3
    = Some (["Goblin"; "Rat"; "Cow"], 3%nat) /\
  get_monster_data Sample.api_500_500_end 2 = None.
Proof.
  split; [|split].
  - intros fuel. by apply fetch_stuck.
  - vm_compute. reflexivity.
  - vm_compute. reflexivity.
Qed.

End fetch_claims.

(** * The image download loop *)

Section download.

Variable env : fs_env.
Variable server : string -> http_response.

Lemma isfile_true_inv w p :
  isfile env w p = true ->
  exists f, resolve env p = Some f /\ is_Some (files w !! f).
Proof.
  unfold isfile. destruct (resolve env p) as [f|]; [|done].
  intros H%bool_decide_eq_true. by exists f.
Qed.

Lemma isfile_true_intro w p f :
  resolve env p = Some f -> is_Some (files w !! f) -> isfile env w p = true.
Proof. unfold isfile. intros -> H. by apply bool_decide_eq_true. Qed.

Lemma isfile_false_inv w p f :
  resolve env p = Some f -> isfile env w p = false -> files w !! f = None.
Proof.
  unfold isfile. intros -> H%bool_decide_eq_false. by apply eq_None_not_Some.
Qed.

(** The ways through one turn of the loop. *)
Lemma step_cached w c img :
  isfile env w (IMG_PATH +:+ img) = true ->
  download_step env server (w, c) img = Ok (w, add_skipped c).
Proof. unfold download_step. by intros ->. Qed.

Lemma step_failed w c img :
  isfile env w (IMG_PATH +:+ img) = false -> ok200 server img = false ->
  download_step env server (w, c) img = Ok (w, add_failed c).
Proof. unfold download_step, ok200. by intros -> ->. Qed.

Lemma step_saved w c img f :
  isfile env w (IMG_PATH +:+ img) = false -> ok200 server img = true ->
  img_file env img = Some f -> writable env f = true ->
  download_step env server (w, c) img =
    Ok ({| files := <[f := Bytes (content
                          (server (WIKI_BASE +:+ "/w/Special:Filepath/" +:+ img)))]>
                      (files w);
           opened := opened w ++ [IMG_PATH +:+ img] |},
        add_success c).
Proof.
  unfold download_step, ok200, img_file, write_file. by intros -> -> -> ->.
Qed.

Lemma step_blocked w c img :
  isfile env w (IMG_PATH +:+ img) = false -> ok200 server img = true ->
  can_open env (IMG_PATH +:+ img) = false ->
  download_step env server (w, c) img = Raise (OSError (IMG_PATH +:+ img)).
Proof.
  unfold download_step, ok200, can_open, write_file. intros -> ->.
  destruct (resolve env _) as [f|]; [|done]. by intros ->.
Qed.

Lemma step_inv w c img w' c' :
  download_step env server (w, c) img = Ok (w', c') ->
  (isfile env w (IMG_PATH +:+ img) = true /\ w' = w /\ c' = add_skipped c) \/
  (isfile env w (IMG_PATH +:+ img) = false /\ ok200 server img = false /\
   w' = w /\ c' = add_failed c) \/
  (isfile env w (IMG_PATH +:+ img) = false /\ ok200 server img = true /\
   exists f, img_file env img = Some f /\ writable env f = true /\
     files w !! f = None /\
     w' = {| files := <[f := Bytes (content
                           (server (WIKI_BASE +:+ "/w/Special:Filepath/" +:+ img)))]>
                       (files w);
             opened := opened w ++ [IMG_PATH +:+ img] |} /\
     c' = add_success c).
Proof.
  destruct (isfile env w (IMG_PATH +:+ img)) eqn:Hc.
  - rewrite step_cached by done. intros [= <- <-]. by left.
  - destruct (ok200 server img) eqn:Hok.
    + destruct (can_open env (IMG_PATH +:+ img)) eqn:Ho.
      * unfold can_open in Ho.
        destruct (resolve env (IMG_PATH +:+ img)) as [f|] eqn:Hf; [|done].
        rewrite (step_saved w c img f) by done. intros [= <- <-].
        right. right. repeat split; try done. exists f.
        repeat split; try done.
        by apply (isfile_false_inv w (IMG_PATH +:+ img) f).
      * by rewrite step_blocked.
    + rewrite step_failed by done. intros [= <- <-]. right. left. done.
Qed.

Lemma loop_cons_inv st a l st' :
  download_loop env server st (a :: l) = Ok st' ->
  exists sa, download_step env server st a = Ok sa /\
             download_loop env server sa l = Ok st'.
Proof. cbn [download_loop]. apply bind_inv. Qed.

Lemma step_total st img st' :
  download_step env server st img = Ok st' -> total st'.2 = S (total st.2).
Proof.
  destruct st as [w c], st' as [w' c'].
  intros [(_ & _ & ->)|[(_ & _ & _ & ->)|(_ & _ & f & _ & _ & _ & _ & ->)]]%step_inv;
    unfold total; simpl; lia.
Qed.

Lemma run_total l st st' :
  download_loop env server st l = Ok st' -> total st'.2 = total st.2 + length l.
Proof.
  revert st. induction l as [|a l IH]; intros st.
  - intros [= <-]. simpl. lia.
  - intros (sa & Ha & Hl)%loop_cons_inv.
    rewrite (IH _ Hl), (step_total _ _ _ Ha). simpl. lia.
Qed.

(** A turn only ever creates a file. *)
Lemma step_only_creates st img st' f :
  download_step env server st img = Ok st' ->
  files st'.1 !! f = files st.1 !! f \/
  (files st.1 !! f = None /\ img_file env img = Some f /\ ok200 server img = true /\
   files st'.1 !! f
   = Some (Bytes (content (server (WIKI_BASE +:+ "/w/Special:Filepath/" +:+ img))))).
Proof.
  destruct st as [w c], st' as [w' c'].
  intros [(_ & -> & _)|[(_ & _ & -> & _)|(_ & Hok & f0 & Hf & _ & Hn & -> & _)]]%step_inv;
    [by left..|].
  simpl. destruct (decide (f0 = f)) as [->|Hne].
  - right. by rewrite lookup_insert_eq.
  - left. by rewrite lookup_insert_ne.
Qed.

Lemma run_only_creates l st st' f :
  download_loop env server st l = Ok st' ->
  files st'.1 !! f = files st.1 !! f \/
  (files st.1 !! f = None /\
   exists img, img ∈ l /\ img_file env img = Some f /\ ok200 server img = true /\
     files st'.1 !! f
     = Some (Bytes (content (server (WIKI_BASE +:+ "/w/Special:Filepath/" +:+ img))))).
Proof.
  revert st. induction l as [|a l IH]; intros st.
  - intros [= <-]. by left.
  - intros (sa & Ha & Hl)%loop_cons_inv.
    destruct (IH _ Hl) as [Hr|(Hn & img & Hin & Hf & Hok & Hb)];
      destruct (step_only_creates _ _ _ f Ha) as [Hs|(Hsn & Hsf & Hsok & Hsb)].
    + left. by rewrite Hr.
    + right. split; [done|]. exists a. rewrite Hr.
      repeat split; try done. by left.
    + right. split; [by rewrite <- Hs|]. exists img.
      repeat split; try done. by right.
    + rewrite Hsb in Hn. discriminate Hn.
Qed.

Lemma run_keeps l st st' f b :
  download_loop env server st l = Ok st' ->
  files st.1 !! f = Some b -> files st'.1 !! f = Some b.
Proof.
  intros Hl Hb. destruct (run_only_creates _ _ _ f Hl) as [->|[Hn _]]; [done|].
  rewrite Hb in Hn. discriminate Hn.
Qed.

Lemma isfile_keeps l st st' p :
  download_loop env server st l = Ok st' ->
  isfile env st.1 p = true -> isfile env st'.1 p = true.
Proof.
  intros Hl (f & Hf & [b Hb])%isfile_true_inv.
  apply (isfile_true_intro _ _ f Hf). exists b. by apply (run_keeps l st).
Qed.

(** When the loop is over, every name has its file or was refused. *)
Lemma run_served l st st' img :
  download_loop env server st l = Ok st' -> img ∈ l ->
  isfile env st'.1 (IMG_PATH +:+ img) = true \/ ok200 server img = false.
Proof.
  revert st. induction l as [|a l IH]; intros st Hl Hin;
    [by apply elem_of_nil in Hin|].
  apply loop_cons_inv in Hl as (sa & Ha & Hl).
  apply elem_of_cons in Hin as [->|Hin]; [|by apply (IH sa)].
  destruct st as [w c], sa as [wa ca].
  apply step_inv in Ha
    as [(Hc & -> & _)|[(_ & Hok & _)|(_ & _ & f & Hf & _ & _ & -> & _)]].
  - left. by apply (isfile_keeps l (w, ca)).
  - by right.
  - left. apply (isfile_keeps l _ _ _ Hl). simpl.
    apply (isfile_true_intro _ _ f Hf). simpl. rewrite lookup_insert_eq. by eexists.
Qed.

Lemma count_imgs_ext (P Q : string -> bool) l :
  (forall img, img ∈ l -> P img = Q img) -> count_imgs P l = count_imgs Q l.
Proof.
  induction l as [|a l IH]; intros H; simpl; [done|].
  rewrite (H a) by (by left). rewrite IH; [done|].
  intros img Hin. apply H. by right.
Qed.

Lemma count_imgs_perm (P : string -> bool) l1 l2 :
  l1 ≡ₚ l2 -> count_imgs P l1 = count_imgs P l2.
Proof. induction 1; simpl; lia. Qed.




(** *** Names that designate distinct files *)

Lemma distinct_cons a l :
  distinct_files env (a :: l) ->
  distinct_files env l /\
  forall img f, img ∈ l -> img_file env a = Some f -> img_file env img <> Some f.
Proof.
  unfold distinct_files. csimpl.
  destruct (img_file env a) as [fa|] eqn:Ha.
  - intros [Hn Hnd]%NoDup_cons. split; [done|].
    intros img f Hin [= <-] Hf. apply Hn, list_elem_of_omap. by exists img.
  - intros Hnd. split; [done|]. by intros img f _ ?.
Qed.

Lemma distinct_same l a b f :
  distinct_files env l -> a ∈ l -> b ∈ l ->
  img_file env a = Some f -> img_file env b = Some f -> a = b.
Proof.
  induction l as [|x l IH]; intros Hd Ha Hb Hfa Hfb;
    [by apply elem_of_nil in Ha|].
  apply distinct_cons in Hd as [Hd Hx].
  apply elem_of_cons in Ha as [->|Ha]; apply elem_of_cons in Hb as [->|Hb].
  - done.
  - destruct (Hx b f Hb Hfa Hfb).
  - destruct (Hx a f Ha Hfb Hfa).
  - by apply IH.
Qed.

Lemma distinct_perm l1 l2 :
  l1 ≡ₚ l2 -> distinct_files env l1 -> distinct_files env l2.
Proof. unfold distinct_files. by intros ->. Qed.

Lemma step_stable w c a w' c' img :
  download_step env server (w, c) a = Ok (w', c') ->
  (forall f, img_file env a = Some f -> img_file env img <> Some f) ->
  isfile env w' (IMG_PATH +:+ img) = isfile env w (IMG_PATH +:+ img).
Proof.
  intros [(_ & -> & _)|[(_ & _ & -> & _)|(_ & _ & f & Hf & _ & _ & -> & _)]]%step_inv
    Hne; [done..|].
  specialize (Hne f Hf). unfold isfile, img_file in *. simpl.
  destruct (resolve env (IMG_PATH +:+ img)) as [g|]; [|done].
  rewrite lookup_insert_ne; [done|]. by intros ->.
Qed.

(** The counters and the log at the end of the loop, from the state of
    the cache at its start. *)
Lemma run_exact l :
  distinct_files env l -> forall w c w' c',
  download_loop env server (w, c) l = Ok (w', c') ->
  success_img_dls c' = success_img_dls c +
    count_imgs (fun img => negb (isfile env w (IMG_PATH +:+ img))
                           && ok200 server img) l /\
  failed_img_dls c' = failed_img_dls c +
    count_imgs (fun img => negb (isfile env w (IMG_PATH +:+ img))
                           && negb (ok200 server img)) l /\
  skipped_img_dls c' = skipped_img_dls c +
    count_imgs (fun img => isfile env w (IMG_PATH +:+ img)) l /\
  opened w' = (opened w ++
    ((fun img => IMG_PATH +:+ img) <$>
     List.filter (fun img => negb (isfile env w (IMG_PATH +:+ img))
                             && ok200 server img) l))%list.
Proof.
  induction l as [|a l IH]; intros Hd w c w' c'.
  - intros [= <- <-]. simpl. rewrite app_nil_r. repeat split; lia.
  - intros ([wa ca] & Ha & Hl)%loop_cons_inv.
    apply distinct_cons in Hd as [Hd Hx].
    assert (forall img, img ∈ l ->
              isfile env wa (IMG_PATH +:+ img) = isfile env w (IMG_PATH +:+ img))
      as Hsame.
    { intros img Hin. apply (step_stable w c a wa ca img Ha).
      intros f Hf. by apply Hx. }
    destruct (IH Hd _ _ _ _ Hl) as (Hs & Hf & Hk & Ho).
    rewrite (count_imgs_ext _
               (fun img => negb (isfile env w (IMG_PATH +:+ img)) && ok200 server img))
      in Hs by (intros img Hin; by rewrite Hsame).
    rewrite (count_imgs_ext _
               (fun img => negb (isfile env w (IMG_PATH +:+ img))
                           && negb (ok200 server img)))
      in Hf by (intros img Hin; by rewrite Hsame).
    rewrite (count_imgs_ext _ (fun img => isfile env w (IMG_PATH +:+ img)))
      in Hk by done.
    rewrite (List.filter_ext_in _
               (fun img => negb (isfile env w (IMG_PATH +:+ img)) && ok200 server img))
      in Ho by (intros img Hin%list_elem_of_In; by rewrite Hsame).
    cbn [count_imgs List.filter]. rewrite Hs, Hf, Hk, Ho.
    apply step_inv in Ha
      as [(Hc & -> & ->)|[(Hc & Hok & -> & ->)|(Hc & Hok & f & _ & _ & _ & -> & ->)]];
      rewrite Hc, ?Hok; simpl; rewrite <- ?app_assoc; repeat split; lia || done.
Qed.

(** What the loop leaves in the file of a name that was not cached. *)
Lemma run_files_exact l w c w' c' img f :
  distinct_files env l ->
  download_loop env server (w, c) l = Ok (w', c') ->
  img ∈ l ->
  isfile env w (IMG_PATH +:+ img) = false ->
  img_file env img = Some f ->
  files w' !! f =
    if ok200 server img
    then Some (Bytes (content (server (WIKI_BASE +:+ "/w/Special:Filepath/" +:+ img))))
    else None.
Proof.
  intros Hd Hl Hin Hc Hf.
  pose proof (isfile_false_inv w _ f Hf Hc) as Hn.
  destruct (run_only_creates _ _ _ f Hl) as [Hr|(_ & b & Hb & Hfb & Hokb & Hbody)];
    simpl in *.
  - rewrite Hr, Hn.
    destruct (run_served _ _ _ img Hl Hin) as [Hs| ->]; [|done].
    simpl in Hs. apply isfile_true_inv in Hs as (g & Hg & [x Hx]).
    unfold img_file in Hf. congruence.
  - assert (b = img) as -> by (by apply (distinct_same l b img f)).
    by rewrite Hokb.
Qed.

(** The loop raises exactly when it has to create a file that it cannot
    open. *)
Lemma run_needs_open l :
  distinct_files env l -> forall w c r img,
  download_loop env server (w, c) l = Ok r ->
  img ∈ l -> isfile env w (IMG_PATH +:+ img) = false -> ok200 server img = true ->
  can_open env (IMG_PATH +:+ img) = true.
Proof.
  induction l as [|a l IH]; intros Hd w c r img Hl Hin Hc Hok;
    [by apply elem_of_nil in Hin|].
  apply loop_cons_inv in Hl as ([wa ca] & Ha & Hl).
  apply distinct_cons in Hd as [Hd Hx].
  apply elem_of_cons in Hin as [->|Hin].
  - apply step_inv in Ha
      as [(Hc' & _)|[(_ & Hok' & _)|(_ & _ & f & Hf & Hw & _)]]; [congruence..|].
    unfold can_open. unfold img_file in Hf. by rewrite Hf.
  - apply (IH Hd wa ca r img Hl Hin); [|done].
    rewrite (step_stable w c a wa ca img Ha); [done|].
    intros f Hf. by apply Hx.
Qed.

Lemma run_completes l :
  distinct_files env l -> forall w c,
  (forall img, img ∈ l -> isfile env w (IMG_PATH +:+ img) = false ->
               ok200 server img = true -> can_open env (IMG_PATH +:+ img) = true) ->
  exists r, download_loop env server (w, c) l = Ok r.
Proof.
  induction l as [|a l IH]; intros Hd w c H; [by eexists|].
  apply distinct_cons in Hd as [Hd Hx].
  assert (exists wa ca, download_step env server (w, c) a = Ok (wa, ca))
    as (wa & ca & Ha).
  { destruct (isfile env w (IMG_PATH +:+ a)) eqn:Hc;
      [rewrite step_cached by done; by eexists _, _|].
    destruct (ok200 server a) eqn:Hok;
      [|rewrite step_failed by done; by eexists _, _].
    pose proof (H a ltac:(by left) Hc Hok) as Ho. unfold can_open in Ho.
    destruct (resolve env (IMG_PATH +:+ a)) as [f|] eqn:Hf; [|done].
    rewrite (step_saved w c a f) by done. by eexists _, _. }
  cbn [download_loop]. rewrite Ha, bind_Ok.
  apply (IH Hd). intros img Hin Hc Hok. apply H; [by right| |done].
  rewrite <- (step_stable w c a wa ca img Ha); [done|].
  intros f Hf. by apply Hx.
Qed.

End download.

Section download_claims.

Variable env : fs_env.
Variable server : string -> http_response.

Lemma enumeration_NoDup (names : gset string) l : l ≡ₚ elements names -> NoDup l.
Proof. intros ->. apply NoDup_elements. Qed.


Lemma enumeration_length (names : gset string) l :
  l ≡ₚ elements names -> length l = base.size names.
Proof. by intros ->. Qed.


(** C10: when the loop gets to its end, the three counters add up to the
    number of names of the deduplicated set, in whatever order the set
    is enumerated; every turn of the loop that ends adds one to exactly
    one of the three. *)
Theorem counters_partition w (required_imgs l : list string) r :
  l ≡ₚ elements (list_to_set required_imgs : gset string) ->
  download_images env server w l = Ok r ->
  success_img_dls r.2 + failed_img_dls r.2 + skipped_img_dls r.2
  = base.size (list_to_set required_imgs : gset string) /\
  forall st img st',
    download_step env server st img = Ok st' ->
    let c0 := st.2 in
    let c1 := st'.2 in
    (success_img_dls c1, failed_img_dls c1, skipped_img_dls c1) =
      (success_img_dls c0 + 1, failed_img_dls c0, skipped_img_dls c0) \/
    (success_img_dls c1, failed_img_dls c1, skipped_img_dls c1) =
      (success_img_dls c0, failed_img_dls c0 + 1, skipped_img_dls c0) \/
    (success_img_dls c1, failed_img_dls c1, skipped_img_dls c1) =
      (success_img_dls c0, failed_img_dls c0, skipped_img_dls c0 + 1).
Proof.
  intros Hl Hrun. split.
  - pose proof (run_total env server l _ _ Hrun) as Ht.
    unfold total in Ht. rewrite Ht. simpl.
    by apply enumeration_length.
  - intros [w0 c0] img [w1 c1]
      [(_ & _ & ->)|[(_ & _ & _ & ->)|(_ & _ & f & _ & _ & _ & _ & ->)]]%step_inv;
      simpl; auto.
Qed.


End download_claims.



(** Two names that designate one file: the outcome of a run depends on
    the order of the enumeration, and a name that failed in a first run
    is skipped in the second. *)
Lemma aliased_names_runs :
  (r ← download_images Sample2.env_posix Sample2.server_a Sample.empty_world
         ["/a.png"; "a.png"]; Ok r.2)
  = Ok {| success_img_dls := 1; failed_img_dls := 1; skipped_img_dls := 0 |} /\
  (r ← download_images Sample2.env_posix Sample2.server_a Sample.empty_world
         ["a.png"; "/a.png"]; Ok r.2)
  = Ok {| success_img_dls := 1; failed_img_dls := 0; skipped_img_dls := 1 |} /\
  (r ← download_images Sample2.env_posix Sample2.server_a Sample.empty_world
         ["/a.png"; "a.png"];
   r' ← download_images Sample2.env_posix Sample2.server_a r.1 ["/a.png"; "a.png"];
   Ok r'.2)
  = Ok {| success_img_dls := 0; failed_img_dls := 0; skipped_img_dls := 2 |}.
Proof. repeat split; vm_compute; reflexivity. Qed.



Lemma counters_partition_witness :
  exists r,
    download_images Sample.env_flat Sample.server_foo Sample.empty_world
      (elements (list_to_set ["Foo.png"; "Bar.png"; "Foo.png"] : gset string)) = Ok r /\
    success_img_dls r.2 + failed_img_dls r.2 + skipped_img_dls r.2 = 2.
Proof.
  eexists. split; [vm_compute; reflexivity|].
  refine (proj1 (counters_partition Sample.env_flat Sample.server_foo
                   Sample.empty_world ["Foo.png"; "Bar.png"; "Foo.png"] _ _ _ _)).
  - reflexivity.
  - vm_compute; reflexivity.
Defined.

(** * Further properties of the fetch loop *)

Section fetch_more.

Lemma fetch_loop_no_results api n calls monsters offset :
  (forall off, match query (api (calls + n)%nat off) with
               | None => True
               | Some q => results q = None
               end) ->
  exists r c,
    fetch_loop api (S n) calls monsters offset = Some (r, c) /\
    (calls < c <= calls + S n)%nat.
Proof.
  revert calls monsters offset.
  induction n as [|n IH]; intros calls monsters offset Hend.
  - specialize (Hend offset). rewrite Nat.add_0_r in Hend. simpl.
    destruct (query (api calls offset)) as [q|].
    + rewrite Hend. exists monsters, (S calls). split; [done|lia].
    + exists monsters, (S calls). split; [done|lia].
  - cbn [fetch_loop].
    destruct (query (api calls offset)) as [q|];
      [|exists monsters, (S calls); split; [done|lia]].
    destruct (results q) as [res|];
      [|exists monsters, (S calls); split; [done|lia]].
    destruct (query_continue_offset (api calls offset)) as [c|];
      [|eexists _, (S calls); split; [done|lia]].
    destruct (c <? offset)%Z;
      [eexists _, (S calls); split; [done|lia]|].
    destruct (IH (S calls) (dict_union monsters res) c) as (r & c' & Hr & Hc).
    { intros off. replace (S calls + n)%nat with (calls + S n)%nat by lia.
      apply Hend. }
    exists r, c'. split; [exact Hr|lia].
Qed.

(** X1: the loop ends, at the latest, with the first answer that holds
    no results: when the answer to request number [n] (counted from 0)
    has no [query] or no [results], whatever the offset asked for,
    [get_monster_data] returns after at least one and at most [n + 1]
    requests. *)
Theorem fetch_ends_without_results api n :
  (forall off, match query (api n off) with
               | None => True
               | Some q => results q = None
               end) ->
  exists r calls,
    get_monster_data api (S n) = Some (r, calls) /\ (1 <= calls <= S n)%nat.
Proof.
  intros Hend.
  destruct (fetch_loop_no_results api n 0 [] 0%Z Hend) as (r & c & Hr & Hc).
  exists r, c. split; [exact Hr|lia].
Qed.

Lemma fetch_ends_without_results_witness :
  exists r calls,
    get_monster_data Sample2.api_two_pages 3 = Some (r, calls) /\
    (1 <= calls <= 3)%nat.
Proof.
  apply (fetch_ends_without_results Sample2.api_two_pages 2).
  intros off. exact I.
Defined.

Lemma dict_set_keys {V} (d : list (string * V)) k v x :
  x ∈ (dict_set d k v).*1 <-> x = k \/ x ∈ d.*1.
Proof.
  induction d as [|[k' v'] d IH]; simpl.
  - rewrite elem_of_cons, elem_of_nil. tauto.
  - destruct (String.eqb_spec k' k) as [->|Hne]; simpl.
    + rewrite elem_of_cons. tauto.
    + rewrite !elem_of_cons, IH. tauto.
Qed.

Lemma dict_set_prefix {V} (d : list (string * V)) k v :
  d.*1 `prefix_of` (dict_set d k v).*1.
Proof.
  induction d as [|[k' v'] d IH]; simpl.
  - apply prefix_nil.
  - destruct (String.eqb_spec k' k) as [->|Hne]; simpl.
    + done.
    + by apply prefix_cons.
Qed.

Lemma dict_set_map {V} (d : list (string * V)) k v :
  NoDup d.*1 ->
  NoDup (dict_set d k v).*1 /\
  (list_to_map (dict_set d k v) : gmap string V) = <[k := v]> (list_to_map d).
Proof.
  induction d as [|[k' v'] d IH]; simpl; intros Hnd.
  - split; [apply NoDup_singleton|done].
  - apply NoDup_cons in Hnd as [Hk' Hnd]. destruct (IH Hnd) as [IH1 IH2].
    destruct (String.eqb_spec k' k) as [->|Hne]; simpl.
    + split; [by apply NoDup_cons|]. by rewrite insert_insert_eq.
    + split.
      * apply NoDup_cons. split; [|done].
        rewrite dict_set_keys. intros [?|?]; done.
      * rewrite IH2. by apply insert_insert_ne.
Qed.

(** X2: merging a page into the results gathered so far
    ([monsters | results], line 76) is a sequence of map insertions:
    the merged dictionary holds every key once, a key of the page takes
    the value of the page (the later page wins on a collision), and
    the keys already there keep their place in the iteration order. *)
Theorem dict_union_inserts {V} (d1 d2 : list (string * V)) :
  NoDup d1.*1 ->
  NoDup (dict_union d1 d2).*1 /\
  (list_to_map (dict_union d1 d2) : gmap string V)
    = foldl (fun m kv => <[kv.1 := kv.2]> m) (list_to_map d1) d2 /\
  d1.*1 `prefix_of` (dict_union d1 d2).*1.
Proof.
  unfold dict_union. revert d1.
  induction d2 as [|[k v] d2 IH]; intros d1 Hnd; cbn [foldl].
  - done.
  - destruct (dict_set_map d1 k v Hnd) as [Hnd' Hmap].
    destruct (IH _ Hnd') as (H1 & H2 & H3).
    split; [done|]. split.
    + simpl. by rewrite H2, Hmap.
    + etrans; [apply dict_set_prefix|exact H3].
Qed.

Lemma dict_union_inserts_witness :
  NoDup (dict_union [("a", 1); ("b", 2)] [("b", 3); ("c", 4); ("b", 5)]).*1 /\
  (list_to_map (dict_union [("a", 1); ("b", 2)] [("b", 3); ("c", 4); ("b", 5)])
     : gmap string nat)
    = foldl (fun m kv => <[kv.1 := kv.2]> m) (list_to_map [("a", 1); ("b", 2)])
            [("b", 3); ("c", 4); ("b", 5)] /\
  [("a", 1); ("b", 2)].*1
    `prefix_of` (dict_union [("a", 1); ("b", 2)] [("b", 3); ("c", 4); ("b", 5)]).*1.
Proof.
  apply (dict_union_inserts [("a", 1); ("b", 2)] [("b", 3); ("c", 4); ("b", 5)]).
  apply (bool_decide_unpack _). vm_compute. exact I.
Defined.

End fetch_more.

(** * Further properties of the category test *)

Section category_more.

Import PyStr Spec.

Lemma has_category_other_page c tl category :
  other_page category c ->
  has_category (c :: tl) category = has_category tl category.
Proof.
  intros (g & -> & Hg). simpl. rewrite ?bind_Ok.
  by destruct (String.eqb_spec g ("Category:" +:+ category)).
Qed.

(** X3: [has_category] answers [None] exactly when every entry of the
    array is a page with another title. *)
Theorem has_category_none_iff cat category :
  has_category cat category = Ok VNone <-> Forall (other_page category) cat.
Proof.
  induction cat as [|c cat IH].
  - split; [constructor|done].
  - split.
    + destruct c as [| | | |g]; try done. simpl. rewrite ?bind_Ok.
      destruct (String.eqb_spec g ("Category:" +:+ category)) as [->|Hg]; [done|].
      intros H%IH. constructor; [by exists g|done].
    + intros [Hc Hcat]%Forall_cons.
      rewrite has_category_other_page by done. by apply IH.
Qed.

(** X4: the search is lazy: it answers the first page that has the
    title looked for, and what comes after it in the array is not
    looked at, whatever it is. *)
Theorem has_category_first_match pre post category :
  Forall (other_page category) pre ->
  has_category (pre ++ VPage ("Category:" +:+ category) :: post) category
  = Ok (VPage ("Category:" +:+ category)).
Proof.
  induction 1 as [|c pre Hc _ IH]; simpl.
  - by rewrite ?bind_Ok, String.eqb_refl.
  - fold (has_category (pre ++ VPage ("Category:" +:+ category) :: post) category).
    rewrite <- IH. by apply has_category_other_page.
Qed.

Lemma has_category_first_match_witness :
  has_category
    ([VPage "Category:Monsters"] ++
     VPage ("Category:" +:+ "Discontinued content") :: [VStr "not a page"])
    "Discontinued content"
  = Ok (VPage ("Category:" +:+ "Discontinued content")).
Proof.
  apply has_category_first_match.
  constructor; [|constructor]. exists "Category:Monsters".
  split; [reflexivity|discriminate].
Defined.



Lemma has_category_pages cat category :
  Forall is_page cat ->
  has_category cat category = Ok VNone \/
  has_category cat category = Ok (VPage ("Category:" +:+ category)).
Proof.
  induction 1 as [|c cat [g ->] _ IH]; simpl; [by left|].
  rewrite ?bind_Ok.
  destruct (String.eqb_spec g ("Category:" +:+ category)) as [->|Hg]; [by right|done].
Qed.

Lemma has_category_found cat category :
  Forall is_page cat ->
  VPage ("Category:" +:+ category) ∈ cat ->
  has_category cat category = Ok (VPage ("Category:" +:+ category)).
Proof.
  induction 1 as [|c cat [g ->] Hcat IH]; intros Hin; [by apply elem_of_nil in Hin|].
  simpl. rewrite ?bind_Ok.
  destruct (String.eqb_spec g ("Category:" +:+ category)) as [->|Hg]; [done|].
  apply IH. apply elem_of_cons in Hin as [[= Heq]|Hin]; [by subst|done].
Qed.

(** X6: a record with printouts whose [Category] printout is made of
    pages, one of which is "Category:Non-interactive scenery" or
    "Category:Discontinued content", is skipped, whatever its other
    printouts hold and even when other keys are not there. *)
Theorem excluded_category_skipped k v po cat :
  printouts v = Some po ->
  po !! "Category" = Some cat ->
  Forall is_page cat ->
  VPage "Category:Non-interactive scenery" ∈ cat \/
  VPage "Category:Discontinued content" ∈ cat ->
  process_record k v = Ok None.
Proof.
  intros Hpo Hcat Hpages Hin.
  unfold process_record, build_monster. rewrite Hpo.
  destruct (contains _ _); [done|]. destruct (match_namespace k); [done|].
  rewrite !(getitem_Some _ _ _ Hcat), bind_Ok.
  destruct (has_category_pages cat "Non-interactive scenery" Hpages) as [H1|H1];
    rewrite H1, bind_Ok; cbn [truthy]; [|by rewrite !bind_Ok].
  rewrite bind_Ok.
  destruct Hin as [Hin|Hin].
  - rewrite (has_category_found cat "Non-interactive scenery") in H1 by done.
    discriminate H1.
  - rewrite (has_category_found cat "Discontinued content") by done.
    by rewrite !bind_Ok.
Qed.

Lemma excluded_category_skipped_witness :
  process_record "Old goblin" Sample2.scenery = Ok None.
Proof.
  eapply (excluded_category_skipped "Old goblin" Sample2.scenery).
  - reflexivity.
  - vm_compute; reflexivity.
  - repeat constructor; by eexists.
  - right. apply elem_of_cons; right; apply elem_of_cons; by left.
Defined.

End category_more.

(** * Further properties of the normalisation of one record *)

Section record_more.

Import PyStr Spec.

Ltac inv_field H :=
  let l := fresh "l" in
  let E := fresh "E" in
  let x := fresh "x" in
  apply bind_inv in H as (x & (l & E & ->)%field_inv & H);
  apply lookup_total_correct in E.

Ltac inv_item H :=
  let l := fresh "l" in
  let E := fresh "E" in
  apply bind_inv in H as (l & E%getitem_inv & H);
  apply lookup_total_correct in E.

Lemma build_monster_tests k v m :
  build_monster k v = Ok (Some m) ->
  contains "Challenge Mode" (key_version k) = false /\
  match_namespace k = false.
Proof.
  unfold build_monster. destruct (printouts v); [|done].
  destruct (contains _ _); [done|]. by destruct (match_namespace k).
Qed.

(** The extraction, when it succeeds, has built the literal. *)
Lemma build_monster_literal k v m :
  build_monster k v = Ok (Some m) ->
  exists po, printouts v = Some po /\ m = monster_literal k po.
Proof.
  unfold build_monster. destruct (printouts v) as [po|]; [|done].
  destruct (contains _ _); [done|]. destruct (match_namespace k); [done|].
  intros H. exists po. split; [done|].
  apply bind_inv in H as (cat & _ & H).
  apply bind_inv in H as (c1 & _ & H).
  apply bind_inv in H as (c2 & _ & H).
  destruct (truthy c2); [done|].
  inv_item H. inv_item H.
  apply bind_inv in H as (im & Him & H).
  do 20 inv_field H. inv_item H.
  injection H as <-. unfold monster_literal, read_field.
  repeat match goal with E : _ !!! _ = _ |- _ => rewrite E; clear E end.
  f_equal.
  destruct l0 as [|c ?]; [by injection Him as <-|].
  apply bind_inv in Him as (f & Hf & [= <-]).
  destruct c; simpl in Hf; try done. by injection Hf as ->.
Qed.

(** X7: a record whose key has a version, the part after the first
    hash, that contains "Challenge Mode" is skipped whatever the record
    holds. *)
Theorem challenge_mode_skipped a b v :
  no_char "#" a = true ->
  contains "Challenge Mode" b = true ->
  process_record (a +:+ "#" +:+ b) v = Ok None.
Proof.
  intros Ha Hb. unfold process_record, build_monster.
  destruct (printouts v); [|done].
  by rewrite (key_version_first a b Ha), Hb.
Qed.

Lemma challenge_mode_skipped_witness :
  process_record ("Tekton" +:+ "#" +:+ "Enraged (Challenge Mode)")
                 (Sample.goblin [VInt 300]) = Ok None.
Proof. apply challenge_mode_skipped; reflexivity. Defined.

(** X8: the namespace test of the code is wider than letters: a key in
    which a colon follows a possibly empty run of characters of the
    code range 65..122 (the letters and the six characters between
    [Z] and [a], the underscore among them) is skipped whatever the
    record holds. *)
Theorem namespace_class_skipped p rest v :
  all_chars in_A_z p = true ->
  process_record (p +:+ ":" +:+ rest) v = Ok None.
Proof.
  intros Hp.
  assert (match_namespace (p +:+ ":" +:+ rest) = true) as Hm
    by (apply match_namespace_spec; eauto).
  unfold process_record, build_monster.
  destruct (printouts v); [|done].
  destruct (contains _ _); [done|]. by rewrite Hm.
Qed.

Lemma namespace_class_skipped_witness :
  process_record ("" +:+ ":" +:+ "Goblin") (Sample.goblin [VInt 5]) = Ok None /\
  process_record ("Tok_Xil" +:+ ":" +:+ "Goblin") (Sample.goblin [VInt 5]) = Ok None.
Proof. split; apply namespace_class_skipped; reflexivity. Defined.

(** X9: a record that is kept is the dictionary literal of lines
    139-171, every field read from the printouts in the order of the
    literal and with the default 0 for a falsy or absent first element,
    on which the Vardorvis override is then applied; its key passed tests
    of the version and of the namespace and the literal passed the
    pruning. *)
Theorem kept_record_is_literal k v m :
  process_record k v = Ok (Some m) ->
  exists po,
    printouts v = Some po /\
    m = vardorvis_override (monster_literal k po) /\
    prune (monster_literal k po) = false /\
    contains "Challenge Mode" (key_version k) = false /\
    match_namespace k = false.
Proof.
  intros (m0 & Hb & Hp & ->)%process_record_inv.
  destruct (build_monster_tests _ _ _ Hb) as [Hcm Hns].
  apply build_monster_literal in Hb as (po & Hpo & ->).
  by exists po.
Qed.

Lemma kept_record_is_literal_witness :
  exists m po,
    process_record "Goblin" (Sample.goblin [VInt 5]) = Ok (Some m) /\
    printouts (Sample.goblin [VInt 5]) = Some po /\
    m = vardorvis_override (monster_literal "Goblin" po) /\
    prune (monster_literal "Goblin" po) = false /\
    contains "Challenge Mode" (key_version "Goblin") = false /\
    match_namespace "Goblin" = false.
Proof.
  eexists.
  assert (process_record "Goblin" (Sample.goblin [VInt 5]) = Ok (Some _)) as H
    by (vm_compute; reflexivity).
  destruct (kept_record_is_literal _ _ _ H) as (po & Hpo).
  exists po. split; [exact H|exact Hpo].
Defined.

(** X10: the converse: a record with printouts that hold every key
    read, that is skipped by none of the tests made before the
    extraction and whose literal passes the pruning, is kept, and what
    is kept is the literal with the override applied. *)
Theorem complete_record_kept k v po :
  printouts v = Some po ->
  contains "Challenge Mode" (key_version k) = false ->
  match_namespace k = false ->
  category_passes po = true ->
  image_well_typed po = true ->
  first_missing po = None ->
  prune (monster_literal k po) = false ->
  process_record k v = Ok (Some (vardorvis_override (monster_literal k po))).
Proof.
  intros Hpo Hcm Hns Hcat Himg Hfm Hpr.
  pose proof (first_missing_None _ Hfm) as Hkeys.
  destruct (build_monster_ok k v po) as [m0 Hb]; try done.
  pose proof Hb as Hl.
  apply build_monster_literal in Hl as (po' & Hpo' & ->). simplify_eq.
  unfold process_record. by rewrite Hb, bind_Ok, Hpr.
Qed.

Lemma complete_record_kept_witness :
  process_record "Goblin" (Sample.goblin [VInt 5])
  = Ok (Some (vardorvis_override
                (monster_literal "Goblin"
                   (Sample.po_full [VPage "Category:Monsters"] [VInt 5] [VInt 3029]
                                   [VPage "File:Goblin.png"])))).
Proof.
  apply complete_record_kept; [reflexivity|vm_compute; reflexivity..].
Defined.

Lemma py_or_filled x : filled (py_or x (VInt 0)).
Proof. unfold filled, py_or. destruct (truthy x) eqn:H; auto. Qed.

Lemma override_skills_filled m :
  Forall filled (skills m) -> Forall filled (skills (vardorvis_override m)).
Proof.
  intros H. unfold vardorvis_override.
  repeat case_match; try done; cbn [skills set_skills];
    repeat apply Forall_insert; try done; by right.
Qed.

Lemma override_rest m :
  offensive (vardorvis_override m) = offensive m /\
  defensive (vardorvis_override m) = defensive m /\
  level (vardorvis_override m) = level m /\
  speed (vardorvis_override m) = speed m /\
  size (vardorvis_override m) = size m /\
  id (vardorvis_override m) = id m /\
  attributes (vardorvis_override m) = attributes m /\
  length (skills (vardorvis_override m)) = length (skills m).
Proof.
  unfold vardorvis_override.
  repeat case_match; cbn [skills set_skills]; by rewrite ?length_insert.
Qed.

(** X11: every numeric slot of a kept record (the six skills, the six
    offensive and the five defensive bonuses, level, speed and size)
    holds the default 0 or a truthy value, never [None]; the three
    arrays have their fixed lengths 6, 6 and 5. *)
Theorem kept_record_slots_filled k v m :
  process_record k v = Ok (Some m) ->
  Forall filled
    (skills m ++ offensive m ++ defensive m ++ [level m; speed m; size m]) /\
  length (skills m) = 6 /\ length (offensive m) = 6 /\ length (defensive m) = 5.
Proof.
  intros (m0 & Hb & _ & ->)%process_record_inv.
  apply build_monster_literal in Hb as (po & _ & ->).
  destruct (override_rest (monster_literal k po))
    as (-> & -> & -> & -> & -> & _ & _ & ->).
  split; [|done].
  rewrite !Forall_app. split; [|split; [|split]].
  - apply override_skills_filled.
    repeat (apply Forall_cons_2; [apply py_or_filled|]). apply Forall_nil_2.
  - repeat (apply Forall_cons_2; [apply py_or_filled|]). apply Forall_nil_2.
  - repeat (apply Forall_cons_2; [apply py_or_filled|]). apply Forall_nil_2.
  - repeat (apply Forall_cons_2; [apply py_or_filled|]). apply Forall_nil_2.
Qed.

Lemma kept_record_slots_filled_witness :
  exists m,
    process_record "Rat" (Sample.rec_full [] [VInt 2] [VInt 2854] []) = Ok (Some m) /\
    Forall filled
      (skills m ++ offensive m ++ defensive m ++ [level m; speed m; size m]) /\
    length (skills m) = 6 /\ length (offensive m) = 6 /\ length (defensive m) = 5.
Proof.
  eexists.
  assert (process_record "Rat" (Sample.rec_full [] [VInt 2] [VInt 2854] [])
          = Ok (Some _)) as H by (vm_compute; reflexivity).
  split; [exact H|]. exact (kept_record_slots_filled _ _ _ H).
Defined.

(** X12: the override is an exact table: for a kept record named
    "Vardorvis" the versions "Post-Quest" and "Quest" get defence and
    strength 215/270 and 180/210; the other four skills are always the
    ones read, and a record with another name, or another version, is
    the literal unchanged. *)
Theorem override_table k v m po :
  process_record k v = Ok (Some m) ->
  printouts v = Some po ->
  (key_name k = "Vardorvis" -> key_version k = "Post-Quest" ->
   skills m !! 1%nat = Some (VInt 215) /\ skills m !! 5%nat = Some (VInt 270)) /\
  (key_name k = "Vardorvis" -> key_version k = "Quest" ->
   skills m !! 1%nat = Some (VInt 180) /\ skills m !! 5%nat = Some (VInt 210)) /\
  (key_name k <> "Vardorvis" \/
   key_version k ∉ ["Post-Quest"; "Awakened"; "Quest"] ->
   m = monster_literal k po) /\
  skills m !! 0%nat = Some (read_field po "Attack level") /\
  skills m !! 2%nat = Some (read_field po "Hitpoints") /\
  skills m !! 3%nat = Some (read_field po "Magic level") /\
  skills m !! 4%nat = Some (read_field po "Ranged level").
Proof.
  intros H Hpo.
  apply process_record_inv in H as (m0 & Hb & _ & ->).
  apply build_monster_literal in Hb as (po' & Hpo' & ->).
  assert (po' = po) as -> by congruence. clear Hpo'.
  unfold vardorvis_override.
  change (name (monster_literal k po)) with (key_name k).
  change (version (monster_literal k po)) with (key_version k).
  split; [intros -> ->; by cbn|]. split; [intros -> ->; by cbn|]. split.
  - intros [Hn|Hv].
    + by destruct (String.eqb_spec (key_name k) "Vardorvis").
    + destruct (String.eqb (key_name k) "Vardorvis"); [|done].
      destruct (String.eqb_spec (key_version k) "Post-Quest") as [E|_];
        [destruct Hv; rewrite E; set_solver|].
      destruct (String.eqb_spec (key_version k) "Awakened") as [E|_];
        [destruct Hv; rewrite E; set_solver|].
      destruct (String.eqb_spec (key_version k) "Quest") as [E|_];
        [destruct Hv; rewrite E; set_solver|].
      done.
  - by repeat case_match.
Qed.

Lemma override_table_witness :
  exists m,
    process_record "Vardorvis#Quest" (Sample2.vardorvis [VInt 500]) = Ok (Some m) /\
    skills m !! 1%nat = Some (VInt 180) /\ skills m !! 5%nat = Some (VInt 210).
Proof.
  eexists.
  assert (process_record "Vardorvis#Quest" (Sample2.vardorvis [VInt 500])
          = Ok (Some _)) as H by (vm_compute; reflexivity).
  split; [exact H|].
  refine (proj1 (proj2 (override_table _ _ _ _ H _)) _ _); reflexivity.
Defined.

(** X13: a key with exactly one hash is cut at that hash, the name
    before it and the version after it, and a key without a hash is the
    name, with an empty version. *)
Theorem key_cut_at_hash a b :
  no_char "#" a = true ->
  no_char "#" b = true ->
  key_name (a +:+ "#" +:+ b) = a /\ key_version (a +:+ "#" +:+ b) = b /\
  key_name a = a /\ key_version a = "".
Proof.
  intros Ha Hb. split; [by apply key_name_last|].
  split; [by apply key_version_first|]. by apply key_no_hash.
Qed.

Lemma key_cut_at_hash_witness :
  key_name ("Vardorvis" +:+ "#" +:+ "Awakened") = "Vardorvis" /\
  key_version ("Vardorvis" +:+ "#" +:+ "Awakened") = "Awakened" /\
  key_name "Vardorvis" = "Vardorvis" /\ key_version "Vardorvis" = "".
Proof. apply key_cut_at_hash; reflexivity. Defined.

End record_more.

(** * Further properties of the loop over the records *)

Section normalize_more.

Import PyStr Spec.
Local Open Scope list_scope.

Lemma images_of_app d1 d2 : images_of (d1 ++ d2) = images_of d1 ++ images_of d2.
Proof. unfold images_of. by rewrite fmap_app, List.filter_app. Qed.

Lemma images_of_cons m d :
  images_of (m :: d) =
  (if String.eqb (image m) "" then [] else [image m]) ++ images_of d.
Proof. unfold images_of. simpl. by destruct (String.eqb (image m) ""). Qed.

Lemma normalize_ok_iff items data imgs data' imgs' :
  normalize items data imgs = Ok (data', imgs') <->
  exists outs,
    Forall2 (fun kv o => process_record kv.1 kv.2 = Ok o) items outs /\
    data' = data ++ omap (fun o => o) outs /\
    imgs' = imgs ++ images_of (omap (fun o => o) outs).
Proof.
  revert data imgs. induction items as [|[k v] items IH]; intros data imgs.
  - simpl. split.
    + intros [= <- <-]. exists []. by rewrite !app_nil_r.
    + intros (outs & ->%Forall2_nil_inv_l & -> & ->). by rewrite !app_nil_r.
  - cbn [normalize]. split.
    + destruct (process_record k v) as [[m|]|e] eqn:Hp; rewrite ?bind_Ok; [| |done].
      * intros (outs & Hf & -> & ->)%IH. exists (Some m :: outs).
        split; [by constructor|].
        change (omap (fun o => o) (Some m :: outs))
          with (m :: omap (fun o : option monster => o) outs).
        rewrite images_of_cons, <- !app_assoc. split; [done|].
        destruct (String.eqb (image m) ""); by rewrite <- ?app_assoc.
      * intros (outs & Hf & -> & ->)%IH. exists (None :: outs).
        split; [by constructor|done].
    + intros (outs & Hf & -> & ->).
      apply Forall2_cons_inv_l in Hf as (o & outs' & Ho & Hf & ->).
      simpl in Ho. rewrite Ho, bind_Ok. destruct o as [m|].
      * apply IH. exists outs'. split; [done|].
        change (omap (fun o => o) (Some m :: outs'))
          with (m :: omap (fun o : option monster => o) outs').
        rewrite images_of_cons, <- !app_assoc. split; [done|].
        destruct (String.eqb (image m) ""); by rewrite <- ?app_assoc.
      * apply IH. by exists outs'.
Qed.

Lemma normalize_start items data imgs :
  normalize items [] [] = Ok (data, imgs) ->
  exists outs,
    Forall2 (fun kv o => process_record kv.1 kv.2 = Ok o) items outs /\
    data = omap (fun o => o) outs /\
    imgs = images_of data.
Proof.
  intros (outs & Hf & -> & ->)%normalize_ok_iff. by exists outs.
Qed.

(** X15: the loop is a filtering map: it ends without an exception
    exactly when the body does so on every record, and then the records
    appended are the ones the body kept, in the order of the input, and
    the images appended are their non-empty image names, in the same
    order. *)
Theorem normalize_is_filter_map items data imgs :
  normalize items [] [] = Ok (data, imgs) <->
  exists outs,
    Forall2 (fun kv o => process_record kv.1 kv.2 = Ok o) items outs /\
    data = omap (fun o => o) outs /\
    imgs = images_of data.
Proof.
  rewrite normalize_ok_iff. simpl. split.
  - intros (outs & Hf & -> & ->). by exists outs.
  - intros (outs & Hf & -> & ->). by exists outs.
Qed.

Lemma length_kept (outs : list (option monster)) :
  length (omap (fun o => o) outs) <= length outs.
Proof. induction outs as [|[m|] outs IH]; csimpl; lia. Qed.

Lemma process_record_kept_ok k v m :
  process_record k v = Ok (Some m) -> kept_ok m.
Proof.
  intros H. pose proof (survivor_invariant _ _ _ H) as [Hhp Hid].
  apply process_record_inv in H as (m0 & Hb & Hpr & ->).
  destruct (build_monster_tests _ _ _ Hb) as [Hcm _].
  apply build_monster_literal in Hb as (po & _ & ->).
  unfold kept_ok. rewrite override_name, override_version.
  change (version (monster_literal k po)) with (key_version k).
  unfold prune in Hpr. rewrite !orb_false_iff in Hpr.
  destruct Hpr as [[[[_ _] H1] H2] H3]. done.
Qed.

(** X16: every record of the list that is dumped has an identifier
    that is not [None], a hitpoints entry different from 0, a version
    without "Challenge Mode" and a name whose lower case holds none of
    "(historical)", "(pvm arena)", "(deadman: apocalypse)"; and there
    are at most as many records as raw results. *)
Theorem dumped_records_pass_filters items data imgs :
  normalize items [] [] = Ok (data, imgs) ->
  Forall kept_ok data /\ length data <= length items.
Proof.
  intros (outs & Hf & -> & _)%normalize_start.
  split.
  - apply Forall_forall. intros m (o & Ho & Hm)%list_elem_of_omap. subst o.
    apply list_elem_of_lookup in Ho as [i Hi].
    destruct (Forall2_lookup_r _ _ _ _ _ Hf Hi) as ([k v] & _ & Hp).
    by apply (process_record_kept_ok k v).
  - rewrite (Forall2_length _ _ _ Hf). apply length_kept.
Qed.

Lemma dumped_records_pass_filters_witness :
  exists data imgs,
    normalize Sample2.wiki [] [] = Ok (data, imgs) /\
    Forall kept_ok data /\ length data <= length Sample2.wiki.
Proof.
  do 2 eexists.
  assert (normalize Sample2.wiki [] [] = Ok (_, _)) as H
    by (vm_compute; reflexivity).
  split; [exact H|]. exact (dumped_records_pass_filters _ _ _ H).
Defined.

(** X17: the required images are exactly the image names of the
    dumped records that are not empty: every record with an image has
    its image in the set handed to the download loop, and every name
    of that set is the image of a dumped record. *)
Theorem required_images_of_records items data imgs :
  normalize items [] [] = Ok (data, imgs) ->
  forall img : string,
    img ∈ (list_to_set imgs : gset string) <->
    img <> "" /\ exists m, m ∈ data /\ image m = img.
Proof.
  intros (outs & _ & _ & ->)%normalize_start img.
  rewrite elem_of_list_to_set. unfold images_of.
  rewrite list_elem_of_In, List.filter_In, <- list_elem_of_In, list_elem_of_fmap.
  rewrite negb_true_iff, String.eqb_neq. split.
  - intros [(m & -> & Hm) Hne]. split; [done|]. by exists m.
  - intros [Hne (m & Hm & <-)]. split; [|done]. by exists m.
Qed.

Lemma required_images_of_records_witness :
  exists data imgs,
    normalize Sample2.wiki [] [] = Ok (data, imgs) /\
    ("Foo.png" ∈ (list_to_set imgs : gset string) <->
     "Foo.png" <> "" /\ exists m, m ∈ data /\ image m = "Foo.png").
Proof.
  do 2 eexists.
  assert (normalize Sample2.wiki [] [] = Ok (_, _)) as H
    by (vm_compute; reflexivity).
  split; [exact H|]. exact (required_images_of_records _ _ _ H "Foo.png").
Defined.

End normalize_more.

(** * Further properties of the download loop and of [main] *)

Section download_more.

Variable env : fs_env.
Variable server : string -> http_response.
Local Open Scope list_scope.

(** X18: the loop only ever creates files: when it gets to its end,
    whatever the list of names, a file either holds what it held before,
    or it was not there, is the file that a name of the list designates,
    a name whose request was answered with a 200, and now holds the body
    of that answer.  A file that is there is never rewritten nor
    removed. *)
Theorem download_only_creates w l r f :
  download_images env server w l = Ok r ->
  files r.1 !! f = files w !! f \/
  (files w !! f = None /\
   exists img, img ∈ l /\ img_file env img = Some f /\ ok200 server img = true /\
     files r.1 !! f
     = Some (Bytes (content (server (WIKI_BASE +:+ "/w/Special:Filepath/" +:+ img))))).
Proof. intros Hrun. apply (run_only_creates env server l (w, no_dls) r f Hrun). Qed.

Lemma count_imgs_filter P l : count_imgs P l = length (List.filter P l).
Proof. induction l as [|a l IH]; simpl; [done|]. destruct (P a); simpl; lia. Qed.

(** X19: when the names of the set designate distinct files and the loop
    gets to its end, the paths opened for writing during the loop are
    exactly those of the names that were not cached when the loop
    started and whose request was answered with a 200, each one once and
    in the order of the enumeration, and the success counter is their
    number. *)
Theorem download_write_log w (names : gset string) l r :
  l ≡ₚ elements names ->
  distinct_files env l ->
  download_images env server w l = Ok r ->
  let saved :=
    List.filter (fun img => negb (isfile env w (IMG_PATH +:+ img))
                            && ok200 server img) l in
  opened r.1 = opened w ++ ((fun img => IMG_PATH +:+ img) <$> saved) /\
  success_img_dls r.2 = length saved.
Proof.
  intros Hl Hd Hrun saved. destruct r as [w' c'].
  destruct (run_exact env server l Hd _ _ _ _ Hrun) as (Hs & _ & _ & Ho).
  split; [exact Ho|]. simpl in *. rewrite Hs. apply count_imgs_filter.
Qed.

(** X21: when the names of the set designate distinct files and the loop
    gets to its end, the three counters are read off the state of the
    cache at the start of the loop: the skipped names are the ones
    cached at the start, the successes the uncached ones answered with a
    200 and the failures the uncached ones answered with another
    status. *)
Theorem download_counters_exact w (names : gset string) l r :
  l ≡ₚ elements names ->
  distinct_files env l ->
  download_images env server w l = Ok r ->
  skipped_img_dls r.2
    = count_imgs (fun img => isfile env w (IMG_PATH +:+ img)) l /\
  success_img_dls r.2
    = count_imgs (fun img => negb (isfile env w (IMG_PATH +:+ img))
                             && ok200 server img) l /\
  failed_img_dls r.2
    = count_imgs (fun img => negb (isfile env w (IMG_PATH +:+ img))
                             && negb (ok200 server img)) l.
Proof.
  intros Hl Hd Hrun. destruct r as [w' c'].
  destruct (run_exact env server l Hd _ _ _ _ Hrun) as (Hs & Hf & Hk & _).
  simpl in *. by rewrite Hs, Hf, Hk.
Qed.

Lemma counters_eq (c1 c2 : counters) :
  success_img_dls c1 = success_img_dls c2 ->
  failed_img_dls c1 = failed_img_dls c2 ->
  skipped_img_dls c1 = skipped_img_dls c2 -> c1 = c2.
Proof. destruct c1, c2. simpl. by intros -> -> ->. Qed.

Lemma isfile_false_intro w p f :
  resolve env p = Some f -> files w !! f = None -> isfile env w p = false.
Proof.
  unfold isfile. intros -> Hn. apply bool_decide_eq_false.
  rewrite Hn. by intros [? ?].
Qed.

Lemma run_file_of_start l w c w' c' f :
  distinct_files env l ->
  download_loop env server (w, c) l = Ok (w', c') ->
  files w' !! f =
    match List.find (fun img => bool_decide (img_file env img = Some f)
                                && negb (isfile env w (IMG_PATH +:+ img))
                                && ok200 server img) l with
    | Some img =>
        Some (Bytes (content (server (WIKI_BASE +:+ "/w/Special:Filepath/" +:+ img))))
    | None => files w !! f
    end.
Proof.
  intros Hd Hl.
  destruct (List.find _ l) as [img|] eqn:Hfind.
  - apply List.find_some in Hfind as [Hin%list_elem_of_In Hp].
    apply andb_true_iff in Hp as [Hp Hok].
    apply andb_true_iff in Hp as [Hf%bool_decide_eq_true Hc%negb_true_iff].
    rewrite (run_files_exact env server l w c w' c' img f) by done.
    by rewrite Hok.
  - destruct (run_only_creates env server l _ _ f Hl)
      as [Hr|(Hn & b & Hb%list_elem_of_In & Hfb & Hokb & _)]; [done|].
    simpl in Hn.
    pose proof (List.find_none _ _ Hfind b Hb) as Hp. simpl in Hp.
    rewrite (bool_decide_eq_true_2 _ Hfb), Hokb in Hp.
    rewrite (isfile_false_intro w _ f Hfb Hn) in Hp. discriminate Hp.
Qed.

Lemma find_unique_perm (P : string -> bool) l1 l2 :
  l1 ≡ₚ l2 ->
  (forall a b, a ∈ l1 -> b ∈ l1 -> P a = true -> P b = true -> a = b) ->
  List.find P l1 = List.find P l2.
Proof.
  intros Hp Hu.
  destruct (List.find P l1) as [a|] eqn:H1, (List.find P l2) as [b|] eqn:H2.
  - apply List.find_some in H1 as [Ha%list_elem_of_In HPa].
    apply List.find_some in H2 as [Hb%list_elem_of_In HPb].
    f_equal. apply Hu; try done. by rewrite Hp.
  - apply List.find_some in H1 as [Ha%list_elem_of_In HPa].
    rewrite Hp in Ha. apply list_elem_of_In in Ha.
    rewrite (List.find_none _ _ H2 a Ha) in HPa. discriminate HPa.
  - apply List.find_some in H2 as [Hb%list_elem_of_In HPb].
    rewrite <- Hp in Hb. apply list_elem_of_In in Hb.
    rewrite (List.find_none _ _ H1 b Hb) in HPb. discriminate HPb.
  - done.
Qed.

(** X20: when the names of the set designate distinct files, the order
    in which the set is enumerated does not matter: if the loop gets to
    its end for one enumeration it does so for any other one, and leaves
    the same files and the same three counters.  (With two names for one
    file the order does matter, see [aliased_names_runs].) *)
Theorem download_order_irrelevant w (names : gset string) l1 l2 r1 :
  l1 ≡ₚ elements names ->
  l2 ≡ₚ elements names ->
  distinct_files env l1 ->
  download_images env server w l1 = Ok r1 ->
  exists r2,
    download_images env server w l2 = Ok r2 /\
    files r2.1 = files r1.1 /\ r2.2 = r1.2.
Proof.
  intros Hl1 Hl2 Hd1 Hrun1. unfold download_images in *.
  assert (l1 ≡ₚ l2) as Hp by (by rewrite Hl1, Hl2).
  pose proof (distinct_perm env l1 l2 Hp Hd1) as Hd2.
  destruct (run_completes env server l2 Hd2 w no_dls) as [r2 Hrun2].
  { intros img Hin Hc Hok. rewrite <- Hp in Hin.
    by apply (run_needs_open env server l1 Hd1 w no_dls r1 img). }
  exists r2. split; [done|]. destruct r1 as [w1 c1], r2 as [w2 c2]. simpl. split.
  - apply map_eq. intros f.
    rewrite (run_file_of_start l2 w no_dls w2 c2 f Hd2 Hrun2).
    rewrite (run_file_of_start l1 w no_dls w1 c1 f Hd1 Hrun1).
    rewrite (find_unique_perm _ l1 l2 Hp); [done|].
    intros a b Ha Hb HPa HPb.
    apply andb_true_iff in HPa as [HPa _]. apply andb_true_iff in HPa as [HPa _].
    apply andb_true_iff in HPb as [HPb _]. apply andb_true_iff in HPb as [HPb _].
    apply bool_decide_eq_true in HPa, HPb.
    by apply (distinct_same env l1 a b f).
  - destruct (run_exact env server l1 Hd1 _ _ _ _ Hrun1) as (Hs1 & Hf1 & Hk1 & _).
    destruct (run_exact env server l2 Hd2 _ _ _ _ Hrun2) as (Hs2 & Hf2 & Hk2 & _).
    apply counters_eq.
    + rewrite Hs1, Hs2. f_equal. symmetry. by apply count_imgs_perm.
    + rewrite Hf1, Hf2. f_equal. symmetry. by apply count_imgs_perm.
    + rewrite Hk1, Hk2. f_equal. symmetry. by apply count_imgs_perm.
Qed.

(** X22: a run of [main] that ends without an exception has written the
    dump of the records the loop kept to the file that [FILE_NAME]
    designates, replacing what was there, has gone through exactly the
    set of their non-empty images, and has left every other file that was
    there as it was. *)
Theorem main_from_success wiki w r :
  main_from env wiki server w = Ok r ->
  exists data f0,
    normalize wiki [] [] = Ok (data, images_of data) /\
    resolve env FILE_NAME = Some f0 /\
    files r.1 !! f0 = Some (Dump data) /\
    total r.2 = base.size (list_to_set (images_of data) : gset string) /\
    forall f b, f <> f0 -> files w !! f = Some b -> files r.1 !! f = Some b.
Proof.
  unfold main_from.
  destruct (normalize wiki [] []) as [[data imgs]|e] eqn:Hn; [|done].
  rewrite bind_Ok.
  pose proof Hn as (outs & _ & _ & ->)%normalize_start.
  unfold write_file.
  destruct (resolve env FILE_NAME) as [f0|] eqn:Hf0; [|done].
  destruct (writable env f0); [|done].
  rewrite bind_Ok. unfold download_images. intros Hrun.
  exists data, f0. split; [done|]. split; [done|]. split; [|split].
  - apply (run_keeps env server _ _ _ f0 (Dump data) Hrun).
    simpl. by rewrite lookup_insert_eq.
  - rewrite (run_total env server _ _ _ Hrun). simpl. done.
  - intros f b Hne Hb.
    apply (run_keeps env server _ _ _ f b Hrun).
    simpl. by rewrite lookup_insert_ne.
Qed.

End download_more.

Lemma download_only_creates_witness :
  exists r,
    download_images Sample.env_flat Sample.server_foo Sample2.cached_world
      ["Foo.png"; "Goblin.png"] = Ok r /\
    (files r.1 !! "../cdn/monsters/Goblin.png"
       = files Sample2.cached_world !! "../cdn/monsters/Goblin.png" \/
     (files Sample2.cached_world !! "../cdn/monsters/Goblin.png" = None /\
      exists img, img ∈ ["Foo.png"; "Goblin.png"] /\
        img_file Sample.env_flat img = Some "../cdn/monsters/Goblin.png" /\
        ok200 Sample.server_foo img = true /\
        files r.1 !! "../cdn/monsters/Goblin.png"
        = Some (Bytes (content (Sample.server_foo
                  (WIKI_BASE +:+ "/w/Special:Filepath/" +:+ img)))))).
Proof.
  eexists. split; [vm_compute; reflexivity|].
  apply download_only_creates. vm_compute; reflexivity.
Defined.

Lemma download_write_log_witness :
  exists r,
    download_images Sample.env_flat Sample.server_foo Sample2.cached_world
      (elements ({[ "Foo.png"; "Bar.png"; "Goblin.png" ]} : gset string)) = Ok r /\
    opened r.1 = [IMG_PATH +:+ "Foo.png"] /\ success_img_dls r.2 = 1.
Proof.
  eexists. split; [vm_compute; reflexivity|].
  edestruct (download_write_log Sample.env_flat Sample.server_foo Sample2.cached_world
               {[ "Foo.png"; "Bar.png"; "Goblin.png" ]}
               (elements ({[ "Foo.png"; "Bar.png"; "Goblin.png" ]} : gset string)))
    as [H1 H2];
    [reflexivity
    |apply (bool_decide_unpack _); vm_compute; exact I
    |vm_compute; reflexivity|].
  split; [rewrite H1|rewrite H2]; vm_compute; reflexivity.
Defined.

Lemma download_counters_exact_witness :
  exists r,
    download_images Sample.env_flat Sample.server_foo Sample2.cached_world
      (elements ({[ "Foo.png"; "Bar.png"; "Goblin.png" ]} : gset string)) = Ok r /\
    skipped_img_dls r.2 = 1 /\ success_img_dls r.2 = 1 /\ failed_img_dls r.2 = 1.
Proof.
  eexists. split; [vm_compute; reflexivity|].
  edestruct (download_counters_exact Sample.env_flat Sample.server_foo
               Sample2.cached_world {[ "Foo.png"; "Bar.png"; "Goblin.png" ]}
               (elements ({[ "Foo.png"; "Bar.png"; "Goblin.png" ]} : gset string)))
    as (H1 & H2 & H3);
    [reflexivity
    |apply (bool_decide_unpack _); vm_compute; exact I
    |vm_compute; reflexivity|].
  rewrite H1, H2, H3. repeat split; vm_compute; reflexivity.
Defined.

Lemma download_order_irrelevant_witness :
  exists r1 r2,
    download_images Sample.env_flat Sample.server_foo Sample2.cached_world
      ["Foo.png"; "Goblin.png"; "Bar.png"] = Ok r1 /\
    download_images Sample.env_flat Sample.server_foo Sample2.cached_world
      ["Bar.png"; "Foo.png"; "Goblin.png"] = Ok r2 /\
    files r2.1 = files r1.1 /\ r2.2 = r1.2.
Proof.
  assert (exists r1,
            download_images Sample.env_flat Sample.server_foo Sample2.cached_world
              ["Foo.png"; "Goblin.png"; "Bar.png"] = Ok r1) as [r1 H1]
    by (eexists; vm_compute; reflexivity).
  destruct (download_order_irrelevant Sample.env_flat Sample.server_foo
              Sample2.cached_world {[ "Foo.png"; "Bar.png"; "Goblin.png" ]}
              ["Foo.png"; "Goblin.png"; "Bar.png"]
              ["Bar.png"; "Foo.png"; "Goblin.png"] r1) as (r2 & H2 & H3 & H4);
    [apply (bool_decide_unpack _); vm_compute; exact I
    |apply (bool_decide_unpack _); vm_compute; exact I
    |apply (bool_decide_unpack _); vm_compute; exact I
    |exact H1|].
  exists r1, r2. split; [exact H1|]. split; [exact H2|]. split; [exact H3|exact H4].
Defined.

Lemma main_from_success_witness :
  exists r data,
    main_from Sample.env_flat Sample2.wiki Sample.server_foo Sample2.dumped_world
    = Ok r /\
    files Sample2.dumped_world !! FILE_NAME = Some (Dump []) /\
    files r.1 !! FILE_NAME = Some (Dump data) /\
    length data = 3.
Proof.
  assert (exists r, main_from Sample.env_flat Sample2.wiki Sample.server_foo
                      Sample2.dumped_world = Ok r)
    as [r H] by (eexists; vm_compute; reflexivity).
  destruct (main_from_success _ _ _ _ _ H) as (data & f0 & Hn & Hf0 & Hd & _).
  injection Hf0 as <-.
  exists r, data. split; [exact H|]. split; [vm_compute; reflexivity|].
  split; [exact Hd|].
  assert (normalize Sample2.wiki [] [] = Ok (_, _)) as Hn'
    by (vm_compute; reflexivity).
  rewrite Hn' in Hn. injection Hn as <- _. reflexivity.
Defined.
